(** * Arachne: slot allocation, placement, spin lock and thread identifiers

    A shallow embedding of [src/Arachne.h].  Unsigned and signed machine
    integers are values of [Z] with their wrap-around written out, the
    per-core arrays are lists indexed with stdpp's lookup and insert, and the
    code that can touch memory outside an array, spin, or return is given a
    three-way [Outcome]. *)

From Stdlib Require Import ZArith Lia Bool List.
From stdpp Require Import base option list.

Local Open Scope Z_scope.

(** ** Machine integers *)

(** Conversion of an integer value to [uint64_t], [uint32_t], [uint8_t]
    (reduction modulo 2^w) and to [int] (two's complement, 32 bits). *)
Definition to_uint64 (v : Z) : Z := v mod 2 ^ 64.
Definition to_uint32 (v : Z) : Z := v mod 2 ^ 32.
Definition to_uint8 (v : Z) : Z := v mod 2 ^ 8.
Definition to_int32 (v : Z) : Z := (v + 2 ^ 31) mod 2 ^ 32 - 2 ^ 31.

(** ** Outcomes of a call *)

(** [Returns a]: the call returns [a].  [Undefined]: the call reads or
    writes outside an array, or divides by zero.  [Spins]: the call is still
    inside one of its retry loops when the modelled schedule (fuel, or the
    list of moves of the other threads) is used up. *)
Inductive Outcome (A : Type) : Type :=
  | Returns (a : A)
  | Undefined
  | Spins.
Arguments Returns {A} a.
Arguments Undefined {A}.
Arguments Spins {A}.

#[global] Instance Outcome_ret : MRet Outcome := fun _ a => Returns a.
#[global] Instance Outcome_bind : MBind Outcome := fun _ _ f m =>
  match m with
  | Returns a => f a
  | Undefined => Undefined
  | Spins => Spins
  end.

(** An array read [a[i]] with a signed index: defined inside the array only. *)
Definition load {A : Type} (a : list A) (i : Z) : Outcome A :=
  if 0 <=? i then
    match a !! Z.to_nat i with
    | Some v => Returns v
    | None => Undefined
    end
  else Undefined.

(** ** ThreadId *)

(** The address of a [ThreadContext]: [NULL], or [&activeLists[core][slot]]. *)
Inductive ContextPtr : Type :=
  | NULL
  | ContextAt (core slot : Z).

Definition ContextPtr_eqb (p q : ContextPtr) : bool :=
  match p, q with
  | NULL, NULL => true
  | ContextAt c i, ContextAt d j => (c =? d) && (i =? j)
  | _, _ => false
  end.

Module ThreadId.
Record t : Type := mk { context : ContextPtr; generation : Z }.

(** [ThreadId()] *)
Definition default : t := mk NULL 0.

(** [operator==] *)
Definition eqb (a other : t) : bool :=
  ContextPtr_eqb (context a) (context other)
  && (generation a =? generation other).

(** [operator!=] *)
Definition neqb (a other : t) : bool := negb (eqb a other).
End ThreadId.

(** [const Arachne::ThreadId NullThread;] *)
Definition NullThread : ThreadId.t := ThreadId.default.

(** ** SpinLock *)

Module SpinLock.
(** [false] means free, [true] means locked. *)
Record t : Type := mk { state : bool }.

(** [SpinLock() : state(false)] *)
Definition init : t := mk false.

(** [std::atomic<bool>::exchange]: the previous value and the new lock. *)
Definition exchange (desired : bool) (l : t) : bool * t :=
  (state l, mk desired).

(** [std::atomic<bool>::store] *)
Definition store (desired : bool) (l : t) : t := mk desired.

(** [try_lock]: [return !state.exchange(true, acquire)]. *)
Definition try_lock (l : t) : bool * t :=
  let '(old, l') := exchange true l in (negb old, l').

(** [unlock]: [state.store(false, release)]. *)
Definition unlock (l : t) : t := store false l.

(** What the other threads do to the lock between two exchanges of the
    thread that spins in [lock]: nothing, or a store of [b]. *)
Definition interfere (move : option bool) (l : t) : t :=
  match move with
  | Some b => store b l
  | None => l
  end.

(** [lock]: [while (state.exchange(true, acquire) != false);].  After
    each failed exchange the next move of [others] is applied.  The result
    carries the values the exchanges observed, oldest first.  When the
    lock is held and no other thread moves any more, the loop spins. *)
Fixpoint lock (others : list (option bool)) (l : t)
  : Outcome (list bool * t) :=
  let '(old, l1) := exchange true l in
  if old then
    match others with
    | [] => Spins
    | move :: others' =>
        '(seen, l2) ← lock others' (interfere move l1);
        mret (old :: seen, l2)
    end
  else Returns ([old], l1).
End SpinLock.

(** ** Thread contexts and the occupancy word *)

(** Modelled from the spec: [CACHE_LINE_SIZE] is defined in [Common.h],
    which is not part of the sources; the specification gives one cache
    line as 64 bytes. *)
Definition CACHE_LINE_SIZE : nat := 64.

(** [ConditionVariable]: only its data member is declared in the header. *)
Module ConditionVariable.
Record t : Type := mk { blockedThreads : list ThreadId.t }.
End ConditionVariable.

Module ThreadContext.
Record t : Type := mk {
  stack : Z;
  sp : Z;
  wakeupTimeInCycles : Z;
  generation : Z;
  joinLock : SpinLock.t;
  joinCV : ConditionVariable.t;
  idInCore : Z;
  threadInvocation : list Byte.byte
}.

Definition set_wakeupTimeInCycles (v : Z) (c : t) : t :=
  mk (stack c) (sp c) v (generation c) (joinLock c) (joinCV c)
     (idInCore c) (threadInvocation c).

Definition set_threadInvocation (d : list Byte.byte) (c : t) : t :=
  mk (stack c) (sp c) (wakeupTimeInCycles c) (generation c) (joinLock c)
     (joinCV c) (idInCore c) d.
End ThreadContext.

(** The object a [ThreadInvocation<F>] constructor builds, as the bytes of
    its representation.  The [static_assert] of the constructor is a
    condition on the type [F]: a representation longer than a cache line
    is not an inhabitant. *)
Record ThreadInvocation : Type := {
  objectBytes : list Byte.byte;
  static_assert : (length objectBytes <=? CACHE_LINE_SIZE)%nat = true
}.

Definition maxThreadsPerCore : Z := 56.

Definition BLOCKED : Z := to_uint64 (Z.lnot 0).
Definition UNOCCUPIED : Z := to_uint64 (Z.lnot 0 - 1).

(** [struct MaskAndCount { uint64_t occupied : 56; uint8_t numOccupied : 8; }] *)
Record MaskAndCount : Type := {
  occupied : Z;
  numOccupied : Z
}.

(** The values the two bit-fields can hold. *)
Definition MaskAndCount_valid (m : MaskAndCount) : Prop :=
  0 <= occupied m < 2 ^ 56 /\ 0 <= numOccupied m < 2 ^ 8.

(** Equality of two occupancy words, as [compare_exchange_strong] tests it. *)
Definition MaskAndCount_eqb (a b : MaskAndCount) : bool :=
  (occupied a =? occupied b) && (numOccupied a =? numOccupied b).

(** The number of 1 bits among bits 0..55 of a mask. *)
Definition popcount (mask : Z) : Z :=
  fold_right (fun i acc => Z.b2z (Z.testbit mask (Z.of_nat i)) + acc) 0
             (seq 0 56).

(** ** The random source *)

(** The three static words of [random], and under [TEST] the queue of
    mocked values (empty in a production build). *)
Module RandomState.
Record t : Type := mk {
  mockRandomValues : list Z;
  x : Z;
  y : Z;
  z : Z
}.

Definition initial : t := mk [] 123456789 362436069 521288629.
End RandomState.

(** [random()]: the value returned and the state left behind. *)
Definition random (r : RandomState.t) : Z * RandomState.t :=
  match RandomState.mockRandomValues r with
  | returnValue :: rest =>
      (returnValue,
       RandomState.mk rest (RandomState.x r) (RandomState.y r)
                      (RandomState.z r))
  | [] =>
      let x1 := Z.lxor (RandomState.x r)
                       (to_uint64 (Z.shiftl (RandomState.x r) 16)) in
      let x2 := Z.lxor x1 (Z.shiftr x1 5) in
      let x3 := Z.lxor x2 (to_uint64 (Z.shiftl x2 1)) in
      let t := x3 in
      let x4 := RandomState.y r in
      let y4 := RandomState.z r in
      let z4 := Z.lxor (Z.lxor t x4) y4 in
      (z4, RandomState.mk [] x4 y4 z4)
  end.

(** ** The state of the library, seen from one kernel thread *)

Record Runtime : Type := {
  numCores : Z;
  kernelThreadId : Z;
  loadedContext : ContextPtr;
  occupiedAndCount : list MaskAndCount;
  activeLists : list (list ThreadContext.t);
  randomState : RandomState.t
}.

Definition set_occupiedAndCount (kId : Z) (m : MaskAndCount) (s : Runtime)
  : Runtime :=
  {| numCores := numCores s;
     kernelThreadId := kernelThreadId s;
     loadedContext := loadedContext s;
     occupiedAndCount := <[Z.to_nat kId := m]> (occupiedAndCount s);
     activeLists := activeLists s;
     randomState := randomState s |}.

Definition set_context (kId index : Z) (c : ThreadContext.t) (s : Runtime)
  : Runtime :=
  {| numCores := numCores s;
     kernelThreadId := kernelThreadId s;
     loadedContext := loadedContext s;
     occupiedAndCount := occupiedAndCount s;
     activeLists :=
       alter (fun contexts => <[Z.to_nat index := c]> contexts)
             (Z.to_nat kId) (activeLists s);
     randomState := randomState s |}.

Definition set_randomState (r : RandomState.t) (s : Runtime) : Runtime :=
  {| numCores := numCores s;
     kernelThreadId := kernelThreadId s;
     loadedContext := loadedContext s;
     occupiedAndCount := occupiedAndCount s;
     activeLists := activeLists s;
     randomState := r |}.

(** [activeLists[kId][index]] *)
Definition context_at (kId index : Z) (s : Runtime)
  : Outcome ThreadContext.t :=
  contexts ← load (activeLists s) kId;
  load contexts index.

(** ** Allocation of a slot: the [do ... while (!success)] loop *)

(** [slotMap.occupied & (1L << index)], as a condition. *)
Definition slotTaken (mask index : Z) : bool :=
  negb (Z.land mask (Z.shiftl 1 index) =? 0).

(** [while ((slotMap.occupied & (1L << index)) && index < maxThreadsPerCore)
      index++;]
    The loop leaves as soon as [index] reaches [maxThreadsPerCore], so
    [maxThreadsPerCore + 1] tests are always enough ([searchSlot_exit]). *)
Fixpoint searchSlot (fuel : nat) (mask index : Z) : Z :=
  match fuel with
  | O => index
  | S fuel' =>
      if slotTaken mask index && (index <? maxThreadsPerCore)
      then searchSlot fuel' mask (index + 1)
      else index
  end.

(** One pass through the body of the loop up to the compare-and-swap: the
    index found and the word to install, or [None] at [return NullThread]. *)
Definition reserve (oldSlotMap : MaskAndCount) : option (Z * MaskAndCount) :=
  let index :=
    searchSlot (S (Z.to_nat maxThreadsPerCore)) (occupied oldSlotMap) 0 in
  if index =? maxThreadsPerCore then None
  else
    Some (index,
          {| occupied :=
               Z.land (Z.lor (occupied oldSlotMap) (Z.shiftl 1 index))
                      0x00FFFFFFFFFFFFFF mod 2 ^ 56;
             numOccupied := to_uint8 (numOccupied oldSlotMap + 1) |}).

(** How the loop ends: at [return NullThread] with the last word read, or
    with a successful compare-and-swap of [slotMap] against [oldSlotMap]. *)
Inductive Allocation : Type :=
  | Full (seen : MaskAndCount)
  | Reserved (oldSlotMap : MaskAndCount) (index : Z) (slotMap : MaskAndCount).

(** The loop on the word of one core.  [current] is the word in memory when
    the pass starts; [others] lists, pass by pass, the word the other
    threads have left in memory when the compare-and-swap runs (when the
    list is used up, nobody writes any more).  The compare-and-swap fails,
    and the loop starts again from the word in memory, exactly when that
    word differs from the snapshot. *)
Fixpoint allocateSlot (others : list MaskAndCount) (current : MaskAndCount)
  : Allocation :=
  match reserve current with
  | None => Full current
  | Some (index, slotMap) =>
      match others with
      | [] => Reserved current index slotMap
      | inMemory :: others' =>
          if MaskAndCount_eqb inMemory current
          then Reserved current index slotMap
          else allocateSlot others' inMemory
      end
  end.

(** Placement [new] of the invocation at the start of the buffer. *)
Definition placeInvocation (task : ThreadInvocation) (data : list Byte.byte)
  : list Byte.byte :=
  objectBytes task ++ drop (length (objectBytes task)) data.

(** ** createThread(kId, f, args...) *)

Definition createThread (others : list MaskAndCount) (kId : Z)
    (task : ThreadInvocation) (s : Runtime) : Outcome (ThreadId.t * Runtime) :=
  let kId := if kId =? -1 then kernelThreadId s else kId in
  slotMap ← load (occupiedAndCount s) kId;
  match allocateSlot others slotMap with
  | Full seen => Returns (NullThread, set_occupiedAndCount kId seen s)
  | Reserved _ index slotMap =>
      let s1 := set_occupiedAndCount kId slotMap s in
      c ← context_at kId index s1;
      let c1 :=
        ThreadContext.set_threadInvocation
          (placeInvocation task (ThreadContext.threadInvocation c)) c in
      let c2 := ThreadContext.set_wakeupTimeInCycles 0 c1 in
      let s2 := set_context kId index c2 s1 in
      Returns (ThreadId.mk (ContextAt kId index) (ThreadContext.generation c2),
               s2)
  end.

(** ** createThread(f, args...) *)

(** [static_cast<int>(random()) % numCores], stored in an [int]: the
    value of [random()] is cut to an [int], converted to [unsigned] for the
    remainder by the [uint32_t] operand, and the remainder is converted
    back to [int]. *)
Definition candidate (randomValue cores : Z) : Z :=
  to_int32 (to_uint32 (to_int32 randomValue) mod cores).

(** [while (choice2 == choice1) choice2 = static_cast<int>(random()) % numCores;]
    with a bound on the number of draws. *)
Fixpoint pickSecond (fuel : nat) (cores choice1 choice2 : Z)
    (r : RandomState.t) : Outcome (Z * RandomState.t) :=
  if choice2 =? choice1 then
    match fuel with
    | O => Spins
    | S fuel' =>
        let '(v, r') := random r in
        pickSecond fuel' cores choice1 (candidate v cores) r'
    end
  else Returns (choice2, r).

(** The two draws and the loop: both choices and the random state left. *)
Definition pickTwo (fuel : nat) (cores : Z) (r : RandomState.t)
  : Outcome (Z * Z * RandomState.t) :=
  if cores =? 0 then Undefined
  else
    let '(v1, r1) := random r in
    let choice1 := candidate v1 cores in
    let '(v2, r2) := random r1 in
    let choice2 := candidate v2 cores in
    '(choice2, r3) ← pickSecond fuel cores choice1 choice2 r2;
    mret (choice1, choice2, r3).

(** The comparison of the two loads of [numOccupied]. *)
Definition chooseCore (choice1 choice2 : Z) (m1 m2 : MaskAndCount) : Z :=
  if numOccupied m1 <? numOccupied m2 then choice1 else choice2.

Definition createThread_balanced (fuel : nat) (others : list MaskAndCount)
    (task : ThreadInvocation) (s : Runtime) : Outcome (ThreadId.t * Runtime) :=
  '(choice1, choice2, r) ← pickTwo fuel (numCores s) (randomState s);
  m1 ← load (occupiedAndCount s) choice1;
  m2 ← load (occupiedAndCount s) choice2;
  let kId := chooseCore choice1 choice2 m1 m2 in
  createThread others kId task (set_randomState r s).

(** ** block() *)

Section Dispatch.
(** [dispatch] is declared in the header and defined elsewhere: it is
    taken as it comes. *)
Variable dispatch : Runtime -> Outcome Runtime.

Definition block (s : Runtime) : Outcome Runtime := dispatch s.
End Dispatch.

(** What the specification says [block] does: store [BLOCKED] into the
    [wakeupTimeInCycles] of the loaded context, then call the dispatcher.
    This definition follows the words of the specification, not the source;
    it is compared with [block]. *)
Definition wakeupTimeOfLoaded (s : Runtime) : Outcome Z :=
  match loadedContext s with
  | NULL => Undefined
  | ContextAt kId index =>
      c ← context_at kId index s;
      mret (ThreadContext.wakeupTimeInCycles c)
  end.

Definition storeWakeupTimeOfLoaded (v : Z) (s : Runtime) : Outcome Runtime :=
  match loadedContext s with
  | NULL => Undefined
  | ContextAt kId index =>
      c ← context_at kId index s;
      mret (set_context kId index (ThreadContext.set_wakeupTimeInCycles v c) s)
  end.

Definition block_as_specified (dispatch : Runtime -> Outcome Runtime)
    (s : Runtime) : Outcome Runtime :=
  s' ← storeWakeupTimeOfLoaded BLOCKED s;
  dispatch s'.

(** ** Concrete states used by the examples *)

Definition emptyContext (idInCore : Z) : ThreadContext.t :=
  ThreadContext.mk 0 0 UNOCCUPIED 0 SpinLock.init (ConditionVariable.mk [])
                   idInCore (repeat Byte.x00 CACHE_LINE_SIZE).

Definition emptyCore : list ThreadContext.t :=
  map (fun i => emptyContext (Z.of_nat i)) (seq 0 56).

Definition emptyWord : MaskAndCount := {| occupied := 0; numOccupied := 0 |}.
Definition fullWord : MaskAndCount :=
  {| occupied := 2 ^ 56 - 1; numOccupied := 56 |}.

(** [cores] kernel threads with no Arachne thread on any of them; the
    caller runs on kernel thread 0. *)
Definition idleRuntime (cores : nat) : Runtime :=
  {| numCores := Z.of_nat cores;
     kernelThreadId := 0;
     loadedContext := NULL;
     occupiedAndCount := repeat emptyWord cores;
     activeLists := repeat emptyCore cores;
     randomState := RandomState.initial |}.

(** Two kernel threads, the first with all of its 56 slots in use. *)
Definition crowdedRuntime : Runtime :=
  {| numCores := 2;
     kernelThreadId := 0;
     loadedContext := NULL;
     occupiedAndCount := [fullWord; emptyWord];
     activeLists := [map (ThreadContext.set_wakeupTimeInCycles BLOCKED) emptyCore;
                     emptyCore];
     randomState := RandomState.initial |}.

(** One kernel thread whose slot 0 holds the running thread, runnable. *)
Definition runningRuntime : Runtime :=
  {| numCores := 1;
     kernelThreadId := 0;
     loadedContext := ContextAt 0 0;
     occupiedAndCount := [{| occupied := 1; numOccupied := 1 |}];
     activeLists :=
       [ThreadContext.set_wakeupTimeInCycles 0 (emptyContext 0)
        :: tl emptyCore];
     randomState := RandomState.initial |}.

(** Four kernel threads, two Arachne threads on each of cores 1 and 2 and
    one on core 0, and three mocked values queued for [random]. *)
Definition mockedRuntime : Runtime :=
  {| numCores := 4;
     kernelThreadId := 0;
     loadedContext := NULL;
     occupiedAndCount := [{| occupied := 1; numOccupied := 1 |};
                          {| occupied := 3; numOccupied := 2 |};
                          {| occupied := 3; numOccupied := 2 |};
                          emptyWord];
     activeLists := repeat emptyCore 4;
     randomState := RandomState.mk [5; 5; 2] 123456789 362436069 521288629 |}.

(** Two kernel threads, both with all of their 56 slots in use. *)
Definition packedRuntime : Runtime :=
  {| numCores := 2;
     kernelThreadId := 0;
     loadedContext := NULL;
     occupiedAndCount := [fullWord; fullWord];
     activeLists :=
       repeat (map (ThreadContext.set_wakeupTimeInCycles BLOCKED) emptyCore) 2;
     randomState := RandomState.initial |}.

(** A dispatcher that finds the calling thread runnable and returns at once. *)
Definition dispatchReturnsAtOnce (s : Runtime) : Outcome Runtime := Returns s.

Definition smallTask : ThreadInvocation :=
  {| objectBytes := [Byte.x2a; Byte.x00; Byte.x00; Byte.x00];
     static_assert := eq_refl |}.

(** ** Notions used in the statements about whole states *)

(** [n] successive calls of [random]: the values returned, first call
    first, and the state left behind. *)
Fixpoint draws (n : nat) (r : RandomState.t) : list Z * RandomState.t :=
  match n with
  | O => ([], r)
  | S n' =>
      let '(v, r1) := random r in
      let '(vs, r2) := draws n' r1 in
      (v :: vs, r2)
  end.

(** Every word of the random source holds a [uint64_t]. *)
Definition RandomState_valid (r : RandomState.t) : Prop :=
  Forall (fun v => 0 <= v < 2 ^ 64) (RandomState.mockRandomValues r)
  /\ 0 <= RandomState.x r < 2 ^ 64
  /\ 0 <= RandomState.y r < 2 ^ 64
  /\ 0 <= RandomState.z r < 2 ^ 64.

(** An occupancy word whose count is the number of bits set in its mask. *)
Definition MaskAndCount_consistent (m : MaskAndCount) : Prop :=
  MaskAndCount_valid m /\ numOccupied m = popcount (occupied m).

(** Every [threadInvocation] buffer of the state is one cache line long. *)
Definition buffers_sized (s : Runtime) : Prop :=
  forall kId index c,
    context_at kId index s = Returns c ->
    length (ThreadContext.threadInvocation c) = CACHE_LINE_SIZE.

(** ** Bits of a mask *)

Lemma shiftl_1_pow2 (i : Z) : 0 <= i -> Z.shiftl 1 i = 2 ^ i.
Proof. intros Hi. rewrite Z.shiftl_mul_pow2 by assumption. lia. Qed.

Lemma slotTaken_testbit (mask i : Z) :
  0 <= i -> slotTaken mask i = Z.testbit mask i.
Proof.
  intros Hi. unfold slotTaken. rewrite shiftl_1_pow2 by assumption.
  destruct (Z.testbit mask i) eqn:Hb.
  - apply negb_true_iff, Z.eqb_neq. intros H0.
    assert (Hbit : Z.testbit (Z.land mask (2 ^ i)) i = true).
    { rewrite Z.land_spec, Hb, Z.pow2_bits_true; auto. }
    rewrite H0, Z.bits_0 in Hbit. discriminate.
  - apply negb_false_iff, Z.eqb_eq. apply Z.bits_inj'. intros n Hn.
    rewrite Z.land_spec, Z.bits_0, Z.pow2_bits_eqb by assumption.
    destruct (Z.eqb_spec i n) as [->|]; [rewrite Hb|]; auto using andb_false_r.
Qed.

Lemma searchSlot_spec (mask : Z) (fuel : nat) (index : Z) :
  0 <= index <= 56 -> 56 - index < Z.of_nat fuel ->
  let i := searchSlot fuel mask index in
  index <= i <= 56
  /\ (forall j, index <= j < i -> Z.testbit mask j = true)
  /\ (i < 56 -> Z.testbit mask i = false).
Proof.
  revert index. induction fuel as [|fuel IH]; intros index Hindex Hfuel; [lia|].
  cbn [searchSlot]. unfold maxThreadsPerCore.
  rewrite slotTaken_testbit by lia.
  destruct (Z.testbit mask index) eqn:Hb; cbn [andb].
  - destruct (Z.ltb_spec index 56) as [Hlt|Hge].
    + destruct (IH (index + 1)) as (Hr & Hset & Hclear); [lia|lia|].
      cbv zeta in *. split; [lia|]. split; [|assumption].
      intros j Hj. destruct (Z.eq_dec j index) as [->|]; [assumption|].
      apply Hset. lia.
    + cbv zeta. split; [lia|]. split; intros; lia.
  - cbv zeta. split; [lia|]. split; [intros; lia|auto].
Qed.

Lemma lor_pow2_bound (a i : Z) :
  0 <= a < 2 ^ 56 -> 0 <= i < 56 -> 0 <= Z.lor a (2 ^ i) < 2 ^ 56.
Proof.
  intros Ha Hi.
  assert (Hp : 0 < 2 ^ i) by (apply Z.pow_pos_nonneg; lia).
  assert (Hnn : 0 <= Z.lor a (2 ^ i)) by (apply Z.lor_nonneg; lia).
  split; [assumption|].
  assert (Hpos : 0 < Z.lor a (2 ^ i)).
  { destruct (Z.eq_dec (Z.lor a (2 ^ i)) 0) as [H0|]; [|lia].
    apply Z.lor_eq_0_iff in H0. lia. }
  apply Z.log2_lt_pow2; [assumption|].
  rewrite Z.log2_lor by lia. rewrite Z.log2_pow2 by lia.
  destruct (Z.eq_dec a 0) as [->|Hne].
  - change (Z.log2 0) with 0. lia.
  - assert (Z.log2 a < 56) by (apply Z.log2_lt_pow2; lia). lia.
Qed.

Lemma keep_56_bits (v : Z) :
  0 <= v < 2 ^ 56 -> Z.land v 0x00FFFFFFFFFFFFFF mod 2 ^ 56 = v.
Proof.
  intros Hv. change 0x00FFFFFFFFFFFFFF with (Z.ones 56).
  rewrite Z.land_ones by lia. rewrite Z.mod_mod by lia.
  apply Z.mod_small. assumption.
Qed.

Lemma testbit_lor_pow2 (a i j : Z) :
  0 <= i -> 0 <= j ->
  Z.testbit (Z.lor a (2 ^ i)) j = (j =? i) || Z.testbit a j.
Proof.
  intros Hi Hj. rewrite Z.lor_spec, Z.pow2_bits_eqb by assumption.
  rewrite (Z.eqb_sym i j). apply orb_comm.
Qed.

(** Setting a clear bit below 56 adds one to the number of bits set. *)
Lemma countBits_lor_pow2 (a i : Z) (start len : nat) :
  0 <= i -> Z.testbit a i = false ->
  fold_right (fun k acc => Z.b2z (Z.testbit (Z.lor a (2 ^ i)) (Z.of_nat k)) + acc)
             0 (seq start len)
  = fold_right (fun k acc => Z.b2z (Z.testbit a (Z.of_nat k)) + acc)
               0 (seq start len)
    + (if (Z.of_nat start <=? i) && (i <? Z.of_nat (start + len)) then 1 else 0).
Proof.
  intros Hi Hclear. revert start.
  induction len as [|len IH]; intros start.
  - cbn [seq fold_right]. replace (start + 0)%nat with start by lia.
    destruct (Z.leb_spec (Z.of_nat start) i), (Z.ltb_spec i (Z.of_nat start));
      cbn [andb]; lia.
  - cbn [seq fold_right]. rewrite IH.
    rewrite testbit_lor_pow2 by lia.
    destruct (Z.eqb_spec (Z.of_nat start) i) as [Heq|Hne].
    + rewrite Heq, Hclear. cbn [orb Z.b2z].
      destruct (Z.leb_spec (Z.of_nat (S start)) i); [lia|].
      destruct (Z.leb_spec i i); [|lia].
      destruct (Z.ltb_spec i (Z.of_nat (start + S len))); [|lia].
      cbn [andb]. lia.
    + cbn [orb].
      destruct (Z.leb_spec (Z.of_nat (S start)) i),
               (Z.leb_spec (Z.of_nat start) i),
               (Z.ltb_spec i (Z.of_nat (S start + len))),
               (Z.ltb_spec i (Z.of_nat (start + S len)));
        cbn [andb]; lia.
Qed.

Lemma popcount_lor_pow2 (a i : Z) :
  0 <= i < 56 -> Z.testbit a i = false ->
  popcount (Z.lor a (2 ^ i)) = popcount a + 1.
Proof.
  intros Hi Hclear. unfold popcount.
  rewrite countBits_lor_pow2 by (assumption || lia).
  destruct (Z.leb_spec (Z.of_nat 0) i); [|lia].
  destruct (Z.ltb_spec i (Z.of_nat (0 + 56))); [|lia].
  reflexivity.
Qed.

Lemma popcount_range (a : Z) : 0 <= popcount a <= 56.
Proof.
  unfold popcount.
  assert (H : forall start len,
             0 <= fold_right (fun k acc => Z.b2z (Z.testbit a (Z.of_nat k)) + acc)
                             0 (seq start len) <= Z.of_nat len).
  { intros start len. revert start.
    induction len as [|len IH]; intros start; cbn [seq fold_right]; [lia|].
    specialize (IH (S start)).
    destruct (Z.testbit a (Z.of_nat start)); cbn [Z.b2z]; lia. }
  specialize (H 0%nat 56%nat). lia.
Qed.

(** ** One pass of the allocation loop *)

Lemma searchSlot_exit (mask : Z) :
  let i := searchSlot (S (Z.to_nat maxThreadsPerCore)) mask 0 in
  0 <= i <= 56
  /\ (forall j, 0 <= j < i -> Z.testbit mask j = true)
  /\ (i < 56 -> Z.testbit mask i = false).
Proof.
  apply searchSlot_spec; unfold maxThreadsPerCore; lia.
Qed.

Lemma reserve_full (m : MaskAndCount) :
  (forall i, 0 <= i < 56 -> Z.testbit (occupied m) i = true) ->
  reserve m = None.
Proof.
  intros Hall. unfold reserve.
  destruct (searchSlot_exit (occupied m)) as (Hr & _ & Hclear).
  cbv zeta in *.
  set (i := searchSlot _ _ _) in *.
  destruct (Z.eqb_spec i maxThreadsPerCore) as [|Hne]; [reflexivity|].
  unfold maxThreadsPerCore in Hne. exfalso.
  assert (Hi : i < 56) by lia. specialize (Hclear Hi).
  rewrite Hall in Hclear by lia. discriminate.
Qed.

Lemma reserve_clear (m : MaskAndCount) :
  MaskAndCount_valid m ->
  (exists j, 0 <= j < 56 /\ Z.testbit (occupied m) j = false) ->
  exists index slotMap,
    reserve m = Some (index, slotMap)
    /\ 0 <= index < 56
    /\ Z.testbit (occupied m) index = false
    /\ (forall j, 0 <= j < index -> Z.testbit (occupied m) j = true)
    /\ occupied slotMap = Z.lor (occupied m) (2 ^ index)
    /\ numOccupied slotMap = (numOccupied m + 1) mod 2 ^ 8.
Proof.
  intros [Hocc Hnum] (j & Hj & Hjclear). unfold reserve.
  destruct (searchSlot_exit (occupied m)) as (Hr & Hset & Hclear).
  cbv zeta in *.
  set (i := searchSlot _ _ _) in *.
  assert (Hi : i < 56).
  { destruct (Z.lt_ge_cases i 56) as [|Hge]; [assumption|].
    rewrite Hset in Hjclear by lia. discriminate. }
  destruct (Z.eqb_spec i maxThreadsPerCore) as [Heq|_];
    [unfold maxThreadsPerCore in Heq; lia|].
  eexists _, _. split; [reflexivity|]. cbn [occupied numOccupied].
  rewrite shiftl_1_pow2 by lia.
  rewrite keep_56_bits by (apply lor_pow2_bound; lia).
  repeat split; auto; lia.
Qed.

Lemma MaskAndCount_eqb_eq (a b : MaskAndCount) :
  MaskAndCount_eqb a b = true <-> a = b.
Proof.
  unfold MaskAndCount_eqb. rewrite andb_true_iff, !Z.eqb_eq.
  destruct a, b; cbn. split; [intros [-> ->]; reflexivity|].
  intros H; inversion H; auto.
Qed.

(** A successful compare-and-swap installs what [reserve] computes from the
    snapshot it succeeds against, and that snapshot is the word read at the
    start of the call or one of the words left by the other threads. *)
Lemma allocateSlot_Reserved (others : list MaskAndCount)
    (current old : MaskAndCount) (index : Z) (slotMap : MaskAndCount) :
  allocateSlot others current = Reserved old index slotMap ->
  reserve old = Some (index, slotMap) /\ In old (current :: others).
Proof.
  revert current. induction others as [|inMemory others IH]; intros current.
  - cbn [allocateSlot]. destruct (reserve current) as [[i m]|] eqn:Hres;
      [|discriminate].
    intros H; inversion H; subst. split; [assumption|]. left; reflexivity.
  - cbn [allocateSlot]. destruct (reserve current) as [[i m]|] eqn:Hres;
      [|discriminate].
    destruct (MaskAndCount_eqb inMemory current).
    + intros H; inversion H; subst. split; [assumption|]. left; reflexivity.
    + intros H. apply IH in H as [Hr Hin]. split; [assumption|].
      right. exact Hin.
Qed.

Lemma allocateSlot_undisturbed (current : MaskAndCount) (index : Z)
    (slotMap : MaskAndCount) :
  reserve current = Some (index, slotMap) ->
  allocateSlot [] current = Reserved current index slotMap.
Proof. intros H. cbn [allocateSlot]. rewrite H. reflexivity. Qed.

Lemma allocateSlot_full (others : list MaskAndCount) (current : MaskAndCount) :
  (forall i, 0 <= i < 56 -> Z.testbit (occupied current) i = true) ->
  allocateSlot others current = Full current.
Proof.
  intros Hall. destruct others; cbn [allocateSlot];
    rewrite (reserve_full _ Hall); reflexivity.
Qed.

(** ** createThread on a given core *)

Lemma load_lookup {A : Type} (a : list A) (i : Z) (v : A) :
  load a i = Returns v <-> 0 <= i /\ a !! Z.to_nat i = Some v.
Proof.
  unfold load. destruct (Z.leb_spec 0 i) as [Hi|Hi].
  - destruct (a !! Z.to_nat i) as [w|]; split.
    + intros H; inversion H; auto.
    + intros [_ H]; inversion H; auto.
    + discriminate.
    + intros [_ H]; discriminate.
  - split; [discriminate|]. intros [? _]; lia.
Qed.

(** The invocation never leaves the cache line reserved for it. *)
Lemma placeInvocation_length (task : ThreadInvocation) (data : list Byte.byte) :
  length data = CACHE_LINE_SIZE ->
  length (placeInvocation task data) = CACHE_LINE_SIZE.
Proof.
  intros Hlen. unfold placeInvocation.
  pose proof (static_assert task) as Hfits. apply Nat.leb_le in Hfits.
  rewrite length_app, length_drop. lia.
Qed.

Lemma set_occupiedAndCount_same (kId : Z) (m : MaskAndCount) (s : Runtime) :
  occupiedAndCount s !! Z.to_nat kId = Some m ->
  set_occupiedAndCount kId m s = s.
Proof.
  intros H. destruct s. unfold set_occupiedAndCount. cbn in *.
  rewrite list_insert_id by assumption. reflexivity.
Qed.

Lemma createThread_on_full_core (others : list MaskAndCount) (kId : Z)
    (task : ThreadInvocation) (s : Runtime) (m : MaskAndCount) :
  load (occupiedAndCount s) (if kId =? -1 then kernelThreadId s else kId)
    = Returns m ->
  (forall i, 0 <= i < 56 -> Z.testbit (occupied m) i = true) ->
  createThread others kId task s = Returns (NullThread, s).
Proof.
  intros Hload Hall. unfold createThread. rewrite Hload. cbn [mbind Outcome_bind].
  rewrite allocateSlot_full by assumption.
  apply load_lookup in Hload as [_ Hlook].
  rewrite set_occupiedAndCount_same by assumption. reflexivity.
Qed.

Lemma createThread_reserved (others : list MaskAndCount) (kId : Z)
    (task : ThreadInvocation) (s s' : Runtime) (tid : ThreadId.t)
    (m0 old slotMap : MaskAndCount) (index : Z) :
  let k := if kId =? -1 then kernelThreadId s else kId in
  load (occupiedAndCount s) k = Returns m0 ->
  allocateSlot others m0 = Reserved old index slotMap ->
  createThread others kId task s = Returns (tid, s') ->
  ThreadId.context tid = ContextAt k index
  /\ occupiedAndCount s' !! Z.to_nat k = Some slotMap.
Proof.
  intros k Hload Halloc. unfold createThread. fold k.
  rewrite Hload. cbn [mbind Outcome_bind]. rewrite Halloc.
  destruct (context_at k index (set_occupiedAndCount k slotMap s)) as [c| |];
    cbn [mbind Outcome_bind]; try discriminate.
  intros H; inversion H; subst; clear H. cbn. split; [reflexivity|].
  apply load_lookup in Hload as [_ Hlook].
  apply list_lookup_insert_eq. eapply lookup_lt_Some. exact Hlook.
Qed.

(** ** Theorems on createThread(kId, ...) and on ThreadId *)

(** C2.  When the occupancy word of the target core (the core named by
    [kId], or the caller's core for [kId = -1]) has bits 0..55 all set,
    [createThread] returns [NullThread] and the whole state of the library
    is the one it started from: the occupancy word of every core and
    [wakeupTimeInCycles], [threadInvocation] and [generation] of every
    context are unchanged.  This holds whatever the other threads do. *)
Theorem createThread_full_returns_NullThread :
  forall (others : list MaskAndCount) (kId k : Z) (task : ThreadInvocation)
         (s : Runtime) (m : MaskAndCount),
    k = (if kId =? -1 then kernelThreadId s else kId) ->
    0 <= k ->
    occupiedAndCount s !! Z.to_nat k = Some m ->
    (forall i, 0 <= i < 56 -> Z.testbit (occupied m) i = true) ->
    exists s',
      createThread others kId task s = Returns (NullThread, s')
      /\ s' = s
      /\ occupiedAndCount s' = occupiedAndCount s
      /\ activeLists s' = activeLists s.
Proof.
  intros others kId k task s m -> Hk Hlook Hall.
  exists s. split; [|auto].
  apply createThread_on_full_core with (m := m); [|assumption].
  apply load_lookup. auto.
Qed.

Lemma createThread_full_returns_NullThread_witness :
  createThread [emptyWord] 0 smallTask crowdedRuntime
    = Returns (NullThread, crowdedRuntime)
  /\ createThread [] (-1) smallTask crowdedRuntime
    = Returns (NullThread, crowdedRuntime).
Proof.
  assert (Hfull : forall i, 0 <= i < 56 ->
                            Z.testbit (occupied fullWord) i = true).
  { intros i Hi. change (occupied fullWord) with (Z.ones 56).
    apply Z.ones_spec_low. lia. }
  split.
  - destruct (createThread_full_returns_NullThread
                [emptyWord] 0 0 smallTask crowdedRuntime fullWord
                eq_refl ltac:(lia) eq_refl Hfull) as (s' & Hrun & -> & _).
    exact Hrun.
  - destruct (createThread_full_returns_NullThread
                [] (-1) 0 smallTask crowdedRuntime fullWord
                eq_refl ltac:(lia) eq_refl Hfull) as (s' & Hrun & -> & _).
    exact Hrun.
Defined.

(** C3.  For every occupancy word [w] with a clear bit among bits 0..55:
    the pass of the allocation loop that starts from the snapshot [w]
    chooses the lowest index [index] in 0..55 whose bit is clear in [w], and
    builds the word whose mask is the mask of [w] with exactly bit [index]
    set in addition and whose count is the count of [w] incremented by one,
    as the 8-bit field [numOccupied] increments (by exactly one below 255).
    Whenever the compare-and-swap of [createThread] succeeds against the
    snapshot [w], under any moves of the other threads, the index of the
    context handed out is [index] and the word installed on the core is that
    word; with no other thread in the way the first compare-and-swap
    succeeds. *)
Theorem createThread_takes_lowest_clear_slot :
  forall w : MaskAndCount,
    MaskAndCount_valid w ->
    (exists j, 0 <= j < 56 /\ Z.testbit (occupied w) j = false) ->
    exists (index : Z) (slotMap : MaskAndCount),
      0 <= index < 56
      /\ Z.testbit (occupied w) index = false
      /\ (forall j, 0 <= j < index -> Z.testbit (occupied w) j = true)
      /\ occupied slotMap = Z.lor (occupied w) (Z.shiftl 1 index)
      /\ (forall j, 0 <= j ->
            Z.testbit (occupied slotMap) j
            = (j =? index) || Z.testbit (occupied w) j)
      /\ numOccupied slotMap = (numOccupied w + 1) mod 2 ^ 8
      /\ (numOccupied w < 255 -> numOccupied slotMap = numOccupied w + 1)
      /\ allocateSlot [] w = Reserved w index slotMap
      /\ (forall others current index' slotMap',
            allocateSlot others current = Reserved w index' slotMap' ->
            index' = index /\ slotMap' = slotMap)
      /\ (forall others kId task s m0 index' slotMap' tid s',
            load (occupiedAndCount s)
                 (if kId =? -1 then kernelThreadId s else kId) = Returns m0 ->
            allocateSlot others m0 = Reserved w index' slotMap' ->
            createThread others kId task s = Returns (tid, s') ->
            ThreadId.context tid
            = ContextAt (if kId =? -1 then kernelThreadId s else kId) index
            /\ occupiedAndCount s'
               !! Z.to_nat (if kId =? -1 then kernelThreadId s else kId)
               = Some slotMap).
Proof.
  intros w Hvalid Hclear.
  destruct (reserve_clear w Hvalid Hclear)
    as (index & slotMap & Hres & Hidx & Hbit & Hlow & Hocc & Hnum).
  exists index, slotMap.
  assert (Hsame : forall others current index' slotMap',
             allocateSlot others current = Reserved w index' slotMap' ->
             index' = index /\ slotMap' = slotMap).
  { intros others current index' slotMap' Halloc.
    apply allocateSlot_Reserved in Halloc as [Hres' _].
    rewrite Hres in Hres'. inversion Hres'. auto. }
  repeat match goal with |- _ /\ _ => split end; try assumption.
  - lia.
  - lia.
  - rewrite shiftl_1_pow2 by lia. assumption.
  - intros j Hj. rewrite Hocc. apply testbit_lor_pow2; lia.
  - intros Hsmall. rewrite Hnum. destruct Hvalid as [_ Hn].
    apply Z.mod_small. lia.
  - apply allocateSlot_undisturbed. assumption.
  - intros others kId task s m0 index' slotMap' tid s' Hload Halloc Hrun.
    destruct (Hsame _ _ _ _ Halloc) as [-> ->].
    exact (createThread_reserved others kId task s s' tid m0 w slotMap index
                                 Hload Halloc Hrun).
Qed.

Lemma createThread_takes_lowest_clear_slot_witness :
  exists (tid : ThreadId.t) (s' : Runtime) (index : Z) (slotMap : MaskAndCount),
    createThread [] 1 smallTask mockedRuntime = Returns (tid, s')
    /\ 0 <= index < 56
    /\ Z.testbit 3 index = false
    /\ (forall j, 0 <= j < index -> Z.testbit 3 j = true)
    /\ occupied slotMap = Z.lor 3 (Z.shiftl 1 index)
    /\ numOccupied slotMap = 2 + 1
    /\ allocateSlot [] {| occupied := 3; numOccupied := 2 |}
       = Reserved {| occupied := 3; numOccupied := 2 |} index slotMap
    /\ ThreadId.context tid = ContextAt 1 index
    /\ occupiedAndCount s' !! 1%nat = Some slotMap.
Proof.
  destruct (createThread_takes_lowest_clear_slot
              {| occupied := 3; numOccupied := 2 |})
    as (index & slotMap & H1 & H2 & H3 & H4 & _ & _ & H5 & H6 & _ & H7).
  - split; cbn; lia.
  - exists 2. split; [lia | reflexivity].
  - eexists _, _, index, slotMap.
    split; [vm_compute; reflexivity|].
    refine (conj H1 (conj H2 (conj H3 (conj H4 (conj (H5 _) (conj H6 _)))))).
    + cbn. lia.
    + exact (H7 [] 1 smallTask mockedRuntime _ _ _ _ _ eq_refl H6 eq_refl).
Defined.

(** C4.  If the snapshot against which the compare-and-swap of the
    allocation loop succeeds has [numOccupied] equal to the number of bits
    set in [occupied], so has the word the compare-and-swap installs, which
    is the word [createThread] leaves on the core. *)
Theorem createThread_preserves_count_invariant :
  forall (others : list MaskAndCount) (current old slotMap : MaskAndCount)
         (index : Z),
    MaskAndCount_valid old ->
    allocateSlot others current = Reserved old index slotMap ->
    numOccupied old = popcount (occupied old) ->
    numOccupied slotMap = popcount (occupied slotMap)
    /\ MaskAndCount_valid slotMap
    /\ (forall kId task s tid s',
          load (occupiedAndCount s)
               (if kId =? -1 then kernelThreadId s else kId)
            = Returns current ->
          createThread others kId task s = Returns (tid, s') ->
          occupiedAndCount s'
            !! Z.to_nat (if kId =? -1 then kernelThreadId s else kId)
          = Some slotMap).
Proof.
  intros others current old slotMap index Hvalid Halloc Hinv.
  assert (Hrun : forall kId task s tid s',
             load (occupiedAndCount s)
                  (if kId =? -1 then kernelThreadId s else kId)
               = Returns current ->
             createThread others kId task s = Returns (tid, s') ->
             occupiedAndCount s'
               !! Z.to_nat (if kId =? -1 then kernelThreadId s else kId)
             = Some slotMap).
  { intros kId task s tid s' Hload Hcreate.
    exact (proj2 (createThread_reserved others kId task s s' tid current old
                                        slotMap index Hload Halloc Hcreate)). }
  apply allocateSlot_Reserved in Halloc as [Hres _].
  assert (Hclear : exists j, 0 <= j < 56 /\ Z.testbit (occupied old) j = false).
  { unfold reserve in Hres.
    destruct (searchSlot_exit (occupied old)) as (Hr & _ & Hc).
    cbv zeta in *. set (i := searchSlot _ _ _) in *.
    destruct (Z.eqb_spec i maxThreadsPerCore) as [|Hne]; [discriminate|].
    unfold maxThreadsPerCore in Hne. exists i. split; [lia|]. apply Hc. lia. }
  destruct (reserve_clear old Hvalid Hclear)
    as (i & m & Hres' & Hi & Hbit & _ & Hocc & Hnum).
  rewrite Hres in Hres'. inversion Hres'; subst i m; clear Hres'.
  pose proof (popcount_range (occupied old)) as Hrange.
  assert (Hcount : numOccupied slotMap = popcount (occupied slotMap)).
  { rewrite Hnum, Hocc, popcount_lor_pow2 by assumption.
    rewrite Hinv. apply Z.mod_small. lia. }
  split; [assumption|]. split; [|exact Hrun]. split.
  - rewrite Hocc. apply lor_pow2_bound; [apply Hvalid | assumption].
  - rewrite Hcount. pose proof (popcount_range (occupied slotMap)). lia.
Qed.

Lemma createThread_preserves_count_invariant_witness :
  numOccupied {| occupied := 15; numOccupied := 4 |}
  = popcount (occupied {| occupied := 15; numOccupied := 4 |})
  /\ MaskAndCount_valid {| occupied := 15; numOccupied := 4 |}.
Proof.
  refine (let H := createThread_preserves_count_invariant
           [{| occupied := 3; numOccupied := 2 |};
            {| occupied := 7; numOccupied := 3 |}]
           {| occupied := 1; numOccupied := 1 |}
           {| occupied := 7; numOccupied := 3 |}
           {| occupied := 15; numOccupied := 4 |} 3 _ _ _
          in conj (proj1 H) (proj1 (proj2 H))).
  - split; cbn; lia.
  - reflexivity.
  - reflexivity.
Defined.

Lemma ContextPtr_eqb_eq (p q : ContextPtr) :
  ContextPtr_eqb p q = true <-> p = q.
Proof.
  destruct p as [|c i], q as [|d j]; cbn; try (split; congruence).
  rewrite andb_true_iff, !Z.eqb_eq. split; [intros [-> ->]; reflexivity|].
  intros H; inversion H; auto.
Qed.

(** C10.  [ThreadId()] has a null context and generation 0 and is equal to
    [NullThread] under [operator==]; [operator==] holds exactly when both
    fields agree; [operator!=] is the negation of [operator==]; and what
    [createThread] returns when the target core is full is equal to
    [NullThread] under [operator==]. *)
Theorem NullThread_is_default_ThreadId :
  ThreadId.context ThreadId.default = NULL
  /\ ThreadId.generation ThreadId.default = 0
  /\ ThreadId.eqb ThreadId.default NullThread = true
  /\ (forall a b : ThreadId.t, ThreadId.eqb a b = true <-> a = b)
  /\ (forall a b : ThreadId.t, ThreadId.neqb a b = negb (ThreadId.eqb a b))
  /\ (forall others kId task s m,
        load (occupiedAndCount s) (if kId =? -1 then kernelThreadId s else kId)
          = Returns m ->
        (forall i, 0 <= i < 56 -> Z.testbit (occupied m) i = true) ->
        exists tid s',
          createThread others kId task s = Returns (tid, s')
          /\ ThreadId.eqb tid NullThread = true
          /\ ThreadId.neqb tid NullThread = false).
Proof.
  repeat match goal with |- _ /\ _ => split end; try reflexivity.
  - intros a b. unfold ThreadId.eqb.
    rewrite andb_true_iff, ContextPtr_eqb_eq, Z.eqb_eq.
    destruct a, b; cbn. split; [intros [-> ->]; reflexivity|].
    intros H; inversion H; auto.
  - intros others kId task s m Hload Hall.
    exists NullThread, s. split; [|split; reflexivity].
    exact (createThread_on_full_core others kId task s m Hload Hall).
Qed.

Lemma NullThread_is_default_ThreadId_witness :
  exists tid s',
    createThread [] 0 smallTask crowdedRuntime = Returns (tid, s')
    /\ ThreadId.eqb tid NullThread = true
    /\ ThreadId.neqb tid NullThread = false.
Proof.
  refine (proj2 (proj2 (proj2 (proj2 (proj2 NullThread_is_default_ThreadId))))
            [] 0 smallTask crowdedRuntime fullWord eq_refl _).
  intros i Hi. change (occupied fullWord) with (Z.ones 56).
  apply Z.ones_spec_low. lia.
Defined.

(** ** SpinLock *)

Lemma lock_observations (others : list (option bool)) (l : SpinLock.t)
    (seen : list bool) (l' : SpinLock.t) :
  SpinLock.lock others l = Returns (seen, l') ->
  SpinLock.state l' = true
  /\ exists n, seen = repeat true n ++ [false] /\ (n <= length others)%nat.
Proof.
  revert l seen l'. induction others as [|move others IH]; intros l seen l'.
  - cbn. destruct (SpinLock.state l); [discriminate|].
    intros H; inversion H; subst. split; [reflexivity|].
    exists 0%nat. split; [reflexivity | cbn; lia].
  - cbn [SpinLock.lock SpinLock.exchange].
    destruct (SpinLock.state l).
    + destruct (SpinLock.lock others _) as [[seen1 l1]| |] eqn:Hrec;
        cbn [mbind Outcome_bind mret Outcome_ret]; try discriminate.
      intros H; inversion H; subst; clear H.
      apply IH in Hrec as (Hheld & n & -> & Hn).
      split; [assumption|]. exists (S n). split; [reflexivity | cbn; lia].
    + intros H; inversion H; subst. split; [reflexivity|].
      exists 0%nat. split; [reflexivity | cbn; lia].
Qed.

Lemma lock_free_at_once (others : list (option bool)) (l : SpinLock.t) :
  SpinLock.state l = false ->
  SpinLock.lock others l = Returns ([false], SpinLock.mk true).
Proof.
  intros Hfree. destruct others; cbn; rewrite Hfree; reflexivity.
Qed.

(** C9.  [try_lock] is one exchange: it returns [true] exactly when the
    lock was free before the call, and the lock is held after it in both
    cases.  When [lock] returns, its last exchange, and only that one, saw
    the free state, and the lock is held; it returns at once on a free lock,
    and it does not return while the lock stays held.  [unlock] stores the
    free state. *)
Theorem SpinLock_operations :
  (forall l : SpinLock.t,
      SpinLock.try_lock l = (negb (SpinLock.state l), SpinLock.mk true)
      /\ SpinLock.try_lock l
         = (negb (fst (SpinLock.exchange true l)),
            snd (SpinLock.exchange true l))
      /\ (fst (SpinLock.try_lock l) = true <-> SpinLock.state l = false)
      /\ SpinLock.state (snd (SpinLock.try_lock l)) = true)
  /\ (forall others l seen l',
        SpinLock.lock others l = Returns (seen, l') ->
        SpinLock.state l' = true
        /\ exists n, seen = repeat true n ++ [false])
  /\ (forall others l,
        SpinLock.state l = false ->
        SpinLock.lock others l = Returns ([false], SpinLock.mk true))
  /\ (forall n l,
        SpinLock.state l = true ->
        SpinLock.lock (repeat None n) l = Spins)
  /\ (forall l : SpinLock.t, SpinLock.state (SpinLock.unlock l) = false).
Proof.
  split; [|split; [|split; [|split]]].
  - intros [b]. cbn. repeat split; destruct b; cbn; congruence.
  - intros others l seen l' H.
    apply lock_observations in H as (Hheld & n & Hseen & _). eauto.
  - exact lock_free_at_once.
  - intros n. induction n as [|n IH]; intros [b] Hb; cbn in Hb; subst b.
    + reflexivity.
    + cbn [repeat SpinLock.lock SpinLock.exchange SpinLock.state
           SpinLock.interfere].
      rewrite IH by reflexivity. reflexivity.
  - reflexivity.
Qed.

Lemma SpinLock_operations_witness :
  SpinLock.lock [None; Some false; Some true] (SpinLock.mk true)
    = Returns ([true; true; false], SpinLock.mk true)
  /\ SpinLock.state (SpinLock.mk true) = true
  /\ (exists n, [true; true; false] = repeat true n ++ [false])
  /\ SpinLock.lock [] SpinLock.init = Returns ([false], SpinLock.mk true).
Proof.
  pose proof SpinLock_operations as (_ & Hlock & Hfree & _).
  split; [reflexivity|].
  destruct (Hlock [None; Some false; Some true] (SpinLock.mk true)
                  [true; true; false] (SpinLock.mk true) eq_refl)
    as [Hheld Hseen].
  split; [exact Hheld|]. split; [exact Hseen|].
  exact (Hfree [] SpinLock.init eq_refl).
Defined.

(** ** Placement: createThread(f, args...) *)

Lemma to_int32_small (u : Z) : 0 <= u < 2 ^ 31 -> to_int32 u = u.
Proof.
  intros Hu. unfold to_int32. rewrite Z.mod_small by lia. lia.
Qed.

Lemma candidate_range (v cores : Z) :
  1 <= cores <= 2 ^ 31 -> 0 <= candidate v cores < cores.
Proof.
  intros Hc. unfold candidate.
  pose proof (Z.mod_pos_bound (to_uint32 (to_int32 v)) cores ltac:(lia)).
  rewrite to_int32_small by lia. assumption.
Qed.

Lemma candidate_one (v : Z) : candidate v 1 = 0.
Proof. unfold candidate. rewrite Z.mod_1_r. reflexivity. Qed.

Lemma pickSecond_distinct (fuel : nat) (cores choice1 choice2 : Z)
    (r : RandomState.t) (c : Z) (r' : RandomState.t) :
  pickSecond fuel cores choice1 choice2 r = Returns (c, r') -> c <> choice1.
Proof.
  revert choice2 r. induction fuel as [|fuel IH]; intros choice2 r; cbn.
  - destruct (Z.eqb_spec choice2 choice1); [discriminate|].
    intros H; inversion H; subst. assumption.
  - destruct (Z.eqb_spec choice2 choice1).
    + destruct (random r) as [v r1]. apply IH.
    + intros H; inversion H; subst. assumption.
Qed.

Lemma pickSecond_range (fuel : nat) (cores choice1 choice2 : Z)
    (r : RandomState.t) (c : Z) (r' : RandomState.t) :
  1 <= cores <= 2 ^ 31 -> 0 <= choice2 < cores ->
  pickSecond fuel cores choice1 choice2 r = Returns (c, r') -> 0 <= c < cores.
Proof.
  intros Hc. revert choice2 r. induction fuel as [|fuel IH]; intros choice2 r Hr;
    cbn.
  - destruct (choice2 =? choice1); [discriminate|].
    intros H; inversion H; subst. assumption.
  - destruct (choice2 =? choice1).
    + destruct (random r) as [v r1]. apply IH. apply candidate_range, Hc.
    + intros H; inversion H; subst. assumption.
Qed.

Lemma pickSecond_one_core (fuel : nat) (r : RandomState.t) :
  pickSecond fuel 1 0 0 r = Spins.
Proof.
  revert r. induction fuel as [|fuel IH]; intros r; cbn; [reflexivity|].
  destruct (random r) as [v r1]. rewrite candidate_one. apply IH.
Qed.

Lemma pickTwo_inv (fuel : nat) (cores : Z) (r : RandomState.t)
    (choice1 choice2 : Z) (r' : RandomState.t) :
  pickTwo fuel cores r = Returns (choice1, choice2, r') ->
  cores <> 0
  /\ choice1 = candidate (fst (random r)) cores
  /\ pickSecond fuel cores choice1
                (candidate (fst (random (snd (random r)))) cores)
                (snd (random (snd (random r))))
     = Returns (choice2, r').
Proof.
  unfold pickTwo. destruct (Z.eqb_spec cores 0) as [|Hne]; [discriminate|].
  destruct (random r) as [v1 r1]. cbn [fst snd].
  destruct (random r1) as [v2 r2]. cbn [fst snd].
  destruct (pickSecond fuel cores (candidate v1 cores) (candidate v2 cores) r2)
    as [[c r3]| |] eqn:Hloop; cbn [mbind Outcome_bind mret Outcome_ret];
    try discriminate.
  intros H; inversion H; subst. repeat split; auto.
Qed.

(** C5.  In every run of the load-balanced [createThread] in which the
    loop has picked the two candidates and their occupancy words are read,
    the candidates are distinct, and the call is the core-targeted
    [createThread] on the first candidate when its [numOccupied] is strictly
    the smaller, on the second candidate when the second's is strictly the
    smaller and also when the two are equal. *)
Theorem createThread_balanced_chooses_less_loaded :
  forall (fuel : nat) (others : list MaskAndCount) (task : ThreadInvocation)
         (s : Runtime) (choice1 choice2 : Z) (r : RandomState.t)
         (m1 m2 : MaskAndCount),
    pickTwo fuel (numCores s) (randomState s) = Returns (choice1, choice2, r) ->
    load (occupiedAndCount s) choice1 = Returns m1 ->
    load (occupiedAndCount s) choice2 = Returns m2 ->
    choice1 <> choice2
    /\ exists kId,
         createThread_balanced fuel others task s
         = createThread others kId task (set_randomState r s)
         /\ (numOccupied m1 < numOccupied m2 -> kId = choice1)
         /\ (numOccupied m2 < numOccupied m1 -> kId = choice2)
         /\ (numOccupied m1 = numOccupied m2 -> kId = choice2).
Proof.
  intros fuel others task s choice1 choice2 r m1 m2 Hpick Hm1 Hm2.
  split.
  - apply pickTwo_inv in Hpick as (_ & _ & Hloop).
    apply pickSecond_distinct in Hloop. congruence.
  - exists (chooseCore choice1 choice2 m1 m2). split.
    + unfold createThread_balanced. rewrite Hpick.
      cbn [mbind Outcome_bind]. rewrite Hm1. cbn [mbind Outcome_bind].
      rewrite Hm2. reflexivity.
    + unfold chooseCore.
      destruct (Z.ltb_spec (numOccupied m1) (numOccupied m2));
        repeat split; intros; (reflexivity || lia).
Qed.

(** C6.  With one core every candidate is core 0, whatever [random]
    returns, so the loop that draws the second candidate has not ended
    after any number of draws, and the load-balanced [createThread] does
    not return. *)
Theorem createThread_balanced_one_core_spins :
  (forall v : Z, candidate v 1 = 0)
  /\ (forall (fuel : nat) (r : RandomState.t), pickTwo fuel 1 r = Spins)
  /\ (forall (fuel : nat) (others : list MaskAndCount)
             (task : ThreadInvocation) (s : Runtime),
        numCores s = 1 ->
        createThread_balanced fuel others task s = Spins).
Proof.
  assert (Hpick : forall fuel r, pickTwo fuel 1 r = Spins).
  { intros fuel r. unfold pickTwo. cbn [Z.eqb].
    destruct (random r) as [v1 r1]. destruct (random r1) as [v2 r2].
    rewrite !candidate_one, pickSecond_one_core. reflexivity. }
  split; [exact candidate_one|]. split; [exact Hpick|].
  intros fuel others task s Hone. unfold createThread_balanced.
  rewrite Hone, Hpick. reflexivity.
Qed.

(** C7, amended.  For every number of cores from 1 to 2^31 and every
    value returned by [random], a candidate core index lies in
    [0, numCores); so do both candidates the load-balanced [createThread]
    ends up with, and a read of [occupiedAndCount] at a candidate is inside
    an array of [numCores] words. *)
Theorem candidate_in_range :
  forall (cores v : Z),
    1 <= cores <= 2 ^ 31 ->
    0 <= candidate v cores < cores
    /\ (forall a : list MaskAndCount,
          Z.of_nat (length a) = cores ->
          exists m, load a (candidate v cores) = Returns m)
    /\ (forall fuel r choice1 choice2 r',
          pickTwo fuel cores r = Returns (choice1, choice2, r') ->
          0 <= choice1 < cores /\ 0 <= choice2 < cores).
Proof.
  intros cores v Hc.
  pose proof (candidate_range v cores Hc) as Hr.
  split; [assumption|]. split.
  - intros a Hlen.
    destruct (lookup_lt_is_Some_2 a (Z.to_nat (candidate v cores))) as [m Hm];
      [lia|].
    exists m. apply load_lookup. split; [lia | assumption].
  - intros fuel r choice1 choice2 r' Hpick.
    apply pickTwo_inv in Hpick as (_ & -> & Hloop). split.
    + apply candidate_range, Hc.
    + eapply pickSecond_range; [exact Hc | | exact Hloop].
      apply candidate_range, Hc.
Qed.

Lemma candidate_in_range_witness :
  0 <= candidate 18446744073709551615 4 < 4
  /\ exists m, load (occupiedAndCount mockedRuntime)
                    (candidate 18446744073709551615 4) = Returns m.
Proof.
  destruct (candidate_in_range 4 18446744073709551615 ltac:(lia))
    as (Hrange & Hload & _).
  split; [exact Hrange|]. apply Hload. reflexivity.
Defined.

(** C7 as stated fails: [numCores] is a [uint32_t], and with 2^32 - 1
    cores the remainder 2^31 is stored in the [int] as -2^31, below every
    array of occupancy words. *)
Lemma candidate_negative_for_huge_numCores :
  1 <= 4294967295
  /\ candidate 2147483648 4294967295 = -2147483648
  /\ ~ (0 <= candidate 2147483648 4294967295 < 4294967295)
  /\ pickTwo 0 4294967295 (RandomState.mk [2147483648; 7] 1 2 3)
     = Returns (-2147483648, 7, RandomState.mk [] 1 2 3)
  /\ load (occupiedAndCount mockedRuntime) (candidate 2147483648 4294967295)
     = Undefined.
Proof.
  split; [lia|]. split; [reflexivity|]. split.
  - change (candidate 2147483648 4294967295) with (-2147483648). lia.
  - split; reflexivity.
Qed.

Lemma createThread_balanced_chooses_less_loaded_witness :
  1 <> 2
  /\ exists kId,
       createThread_balanced 8 [] smallTask mockedRuntime
       = createThread [] kId smallTask
           (set_randomState (RandomState.mk [] 123456789 362436069 521288629)
                            mockedRuntime)
       /\ (2 < 2 -> kId = 1) /\ (2 < 2 -> kId = 2) /\ (2 = 2 -> kId = 2).
Proof.
  exact (createThread_balanced_chooses_less_loaded
           8 [] smallTask mockedRuntime 1 2
           (RandomState.mk [] 123456789 362436069 521288629)
           {| occupied := 3; numOccupied := 2 |}
           {| occupied := 3; numOccupied := 2 |}
           eq_refl eq_refl eq_refl).
Defined.

Lemma createThread_balanced_one_core_spins_witness :
  createThread_balanced 1000 [] smallTask (idleRuntime 1) = Spins.
Proof.
  exact (proj2 (proj2 createThread_balanced_one_core_spins)
           1000%nat [] smallTask (idleRuntime 1) eq_refl).
Defined.

(** With two cores the same call returns: the loop ends at the first test. *)
Example createThread_balanced_two_cores_returns :
  exists s',
    createThread_balanced 0 [] smallTask (idleRuntime 2)
    = Returns (ThreadId.mk (ContextAt 0 0) 0, s')
    /\ occupiedAndCount s' = [{| occupied := 1; numOccupied := 1 |}; emptyWord].
Proof. eexists. split; [vm_compute; reflexivity | reflexivity]. Qed.

(** With the mocked values 5, 5, 2 on four cores the candidates are cores
    1 and 2, equally loaded, and the thread goes to slot 2 of core 2. *)
Example createThread_balanced_mocked :
  exists s',
    createThread_balanced 8 [] smallTask mockedRuntime
    = Returns (ThreadId.mk (ContextAt 2 2) 0, s')
    /\ occupiedAndCount s' !! 2%nat = Some {| occupied := 7; numOccupied := 3 |}.
Proof. eexists. split; [vm_compute; reflexivity | reflexivity]. Qed.

(** ** block() *)

(** C1, amended.  [block] is a call of [dispatch] and nothing else: the
    dispatcher receives the state of the caller, with the
    [wakeupTimeInCycles] of the loaded context as the caller left it, and
    what [block] returns is what the dispatcher returns. *)
Theorem block_is_dispatch :
  forall (dispatch : Runtime -> Outcome Runtime) (s : Runtime),
    block dispatch s = dispatch s
    /\ block (fun entry => Returns entry) s = Returns s
    /\ (s' ← block (fun entry => Returns entry) s; wakeupTimeOfLoaded s')
       = wakeupTimeOfLoaded s.
Proof.
  intros dispatch s. repeat split; reflexivity.
Qed.

(** C1 as stated fails: called by a runnable thread (wake-up time 0) with
    a dispatcher that returns at once, [block] leaves the wake-up time of
    the loaded context at 0, where the specified [block] leaves [BLOCKED]. *)
Lemma block_does_not_store_BLOCKED :
  wakeupTimeOfLoaded runningRuntime = Returns 0
  /\ block dispatchReturnsAtOnce runningRuntime = Returns runningRuntime
  /\ (s' ← block dispatchReturnsAtOnce runningRuntime; wakeupTimeOfLoaded s')
     = Returns 0
  /\ (s' ← block_as_specified dispatchReturnsAtOnce runningRuntime;
      wakeupTimeOfLoaded s')
     = Returns BLOCKED
  /\ BLOCKED = 18446744073709551615
  /\ block dispatchReturnsAtOnce runningRuntime
     <> block_as_specified dispatchReturnsAtOnce runningRuntime.
Proof.
  split; [reflexivity|]. split; [reflexivity|]. split; [reflexivity|].
  split; [vm_compute; reflexivity|]. split; [reflexivity|].
  intros Heq.
  assert (H : (s' ← block dispatchReturnsAtOnce runningRuntime;
               wakeupTimeOfLoaded s')
              = (s' ← block_as_specified dispatchReturnsAtOnce runningRuntime;
                 wakeupTimeOfLoaded s')) by (rewrite Heq; reflexivity).
  vm_compute in H. discriminate H.
Qed.

(** ** What a call of createThread(kId, ...) does to the state *)

Lemma reserve_index_range (old : MaskAndCount) (index : Z)
    (slotMap : MaskAndCount) :
  reserve old = Some (index, slotMap) ->
  0 <= index < 56
  /\ Z.testbit (occupied old) index = false
  /\ (forall j, 0 <= j < index -> Z.testbit (occupied old) j = true).
Proof.
  unfold reserve.
  destruct (searchSlot_exit (occupied old)) as (Hr & Hset & Hclear).
  cbv zeta in *. set (i := searchSlot _ _ _) in *.
  destruct (Z.eqb_spec i maxThreadsPerCore) as [|Hne]; [discriminate|].
  unfold maxThreadsPerCore in Hne.
  intros H; inversion H; subst. split; [lia|]. split; [apply Hclear; lia|].
  exact Hset.
Qed.

Lemma reserve_None_full (m : MaskAndCount) :
  reserve m = None ->
  forall i, 0 <= i < 56 -> Z.testbit (occupied m) i = true.
Proof.
  unfold reserve.
  destruct (searchSlot_exit (occupied m)) as (Hr & Hset & _).
  cbv zeta in *. set (i := searchSlot _ _ _) in *.
  destruct (Z.eqb_spec i maxThreadsPerCore) as [Heq|]; [|discriminate].
  unfold maxThreadsPerCore in Heq. intros _ j Hj. apply Hset. lia.
Qed.

Lemma reserve_sets_bit (old : MaskAndCount) (index : Z)
    (slotMap : MaskAndCount) :
  reserve old = Some (index, slotMap) ->
  Z.testbit (occupied slotMap) index = true.
Proof.
  intros Hres. destruct (reserve_index_range _ _ _ Hres) as (Hi & _ & _).
  unfold reserve in Hres.
  destruct (_ =? maxThreadsPerCore); [discriminate|].
  inversion Hres as [[Hidx Hmap]]. cbn [occupied]. rewrite Hidx.
  rewrite Z.mod_pow2_bits_low by lia.
  change 0x00FFFFFFFFFFFFFF with (Z.ones 56).
  rewrite Z.land_spec, Z.lor_spec, Z.ones_spec_low by lia.
  rewrite shiftl_1_pow2, Z.pow2_bits_true by lia.
  rewrite orb_true_r. reflexivity.
Qed.

Lemma allocateSlot_Full (others : list MaskAndCount)
    (current seen : MaskAndCount) :
  allocateSlot others current = Full seen ->
  reserve seen = None /\ In seen (current :: others).
Proof.
  revert current. induction others as [|inMemory others IH]; intros current;
    cbn [allocateSlot]; destruct (reserve current) as [[i m]|] eqn:Hres.
  - discriminate.
  - intros H; inversion H; subst. split; [assumption | left; reflexivity].
  - destruct (MaskAndCount_eqb inMemory current); [discriminate|].
    intros H. apply IH in H as [Hr Hin]. split; [assumption | right; exact Hin].
  - intros H; inversion H; subst. split; [assumption | left; reflexivity].
Qed.

(** The two ways [createThread] returns. *)
Lemma createThread_inv (others : list MaskAndCount) (kId : Z)
    (task : ThreadInvocation) (s s' : Runtime) (tid : ThreadId.t) :
  createThread others kId task s = Returns (tid, s') ->
  let k := if kId =? -1 then kernelThreadId s else kId in
  exists m0,
    load (occupiedAndCount s) k = Returns m0
    /\ ((exists seen,
           allocateSlot others m0 = Full seen
           /\ tid = NullThread
           /\ s' = set_occupiedAndCount k seen s)
        \/ (exists old index slotMap c,
              allocateSlot others m0 = Reserved old index slotMap
              /\ context_at k index s = Returns c
              /\ tid = ThreadId.mk (ContextAt k index)
                                   (ThreadContext.generation c)
              /\ s' = set_context k index
                        (ThreadContext.set_wakeupTimeInCycles 0
                           (ThreadContext.set_threadInvocation
                              (placeInvocation task
                                 (ThreadContext.threadInvocation c)) c))
                        (set_occupiedAndCount k slotMap s))).
Proof.
  intros Hrun k. unfold createThread in Hrun. fold k in Hrun.
  destruct (load (occupiedAndCount s) k) as [m0| |] eqn:Hload;
    cbn [mbind Outcome_bind] in Hrun; try discriminate.
  exists m0. split; [reflexivity|].
  destruct (allocateSlot others m0) as [seen|old index slotMap] eqn:Halloc.
  - left. inversion Hrun; subst. eauto.
  - right.
    change (context_at k index (set_occupiedAndCount k slotMap s))
      with (context_at k index s) in Hrun.
    destruct (context_at k index s) as [c| |] eqn:Hctx;
      cbn [mbind Outcome_bind] in Hrun; try discriminate.
    inversion Hrun; subst. exists old, index, slotMap, c. auto.
Qed.

Lemma context_at_inv (kId index : Z) (s : Runtime) (c : ThreadContext.t) :
  context_at kId index s = Returns c <->
  0 <= kId /\ 0 <= index
  /\ exists contexts,
       activeLists s !! Z.to_nat kId = Some contexts
       /\ contexts !! Z.to_nat index = Some c.
Proof.
  unfold context_at. split.
  - destruct (load (activeLists s) kId) as [contexts| |] eqn:Hk;
      cbn [mbind Outcome_bind]; try discriminate.
    intros Hi. apply load_lookup in Hk as [? ?]. apply load_lookup in Hi as [? ?].
    eauto.
  - intros (Hk & Hi & contexts & Hlk & Hli).
    rewrite (proj2 (load_lookup (activeLists s) kId contexts) (conj Hk Hlk)).
    cbn [mbind Outcome_bind]. apply load_lookup. auto.
Qed.

Lemma context_at_set_context_same (kId index : Z) (c c0 : ThreadContext.t)
    (s : Runtime) :
  context_at kId index s = Returns c0 ->
  context_at kId index (set_context kId index c s) = Returns c.
Proof.
  intros H. apply context_at_inv in H as (Hk & Hi & contexts & Hlk & Hli).
  apply context_at_inv. split; [assumption|]. split; [assumption|].
  exists (<[Z.to_nat index := c]> contexts). cbn [activeLists set_context]. split.
  - rewrite list_lookup_alter_eq, Hlk. reflexivity.
  - apply list_lookup_insert_eq. eapply lookup_lt_Some. exact Hli.
Qed.

Lemma context_at_set_context_other (kId index kId' index' : Z)
    (c : ThreadContext.t) (s : Runtime) :
  0 <= kId -> 0 <= index -> (kId', index') <> (kId, index) ->
  context_at kId' index' (set_context kId index c s)
  = context_at kId' index' s.
Proof.
  intros Hk Hi Hne. unfold context_at, load. cbn [activeLists set_context].
  destruct (Z.leb_spec 0 kId') as [Hk'|]; [|reflexivity].
  destruct (Z.eq_dec kId' kId) as [->|Hkne].
  - rewrite list_lookup_alter_eq.
    destruct (activeLists s !! Z.to_nat kId) as [contexts|]; [|reflexivity].
    cbn [fmap option_fmap option_map mbind Outcome_bind].
    destruct (Z.leb_spec 0 index') as [Hi'|]; [|reflexivity].
    rewrite list_lookup_insert_ne; [reflexivity|].
    intros Heq. apply Hne. f_equal. lia.
  - rewrite list_lookup_alter_ne by lia. reflexivity.
Qed.

Lemma load_set_occupiedAndCount_other (kId kId' : Z) (m : MaskAndCount)
    (s : Runtime) :
  0 <= kId -> kId' <> kId ->
  load (occupiedAndCount (set_occupiedAndCount kId m s)) kId'
  = load (occupiedAndCount s) kId'.
Proof.
  intros Hk Hne. unfold load. cbn [occupiedAndCount set_occupiedAndCount].
  destruct (Z.leb_spec 0 kId'); [|reflexivity].
  rewrite list_lookup_insert_ne by lia. reflexivity.
Qed.

(** X1.  A thread identifier returned by [createThread] is either
    [NullThread] or names a context of the target core in a slot from 0 to
    55, and in the second case it differs from [NullThread] under
    [operator==]: success and failure cannot be confused. *)
Theorem createThread_result_kinds :
  forall (others : list MaskAndCount) (kId : Z) (task : ThreadInvocation)
         (s s' : Runtime) (tid : ThreadId.t),
    createThread others kId task s = Returns (tid, s') ->
    tid = NullThread
    \/ exists index,
         0 <= index < 56
         /\ ThreadId.context tid
            = ContextAt (if kId =? -1 then kernelThreadId s else kId) index
         /\ ThreadId.eqb tid NullThread = false
         /\ ThreadId.neqb tid NullThread = true.
Proof.
  intros others kId task s s' tid Hrun.
  destruct (createThread_inv _ _ _ _ _ _ Hrun)
    as (m0 & _ & [(seen & _ & Htid & _)
                 | (old & index & slotMap & c & Halloc & _ & Htid & _)]).
  - left. assumption.
  - right. exists index. apply allocateSlot_Reserved in Halloc as [Hres _].
    destruct (reserve_index_range _ _ _ Hres) as (Hi & _).
    subst tid. repeat split; (lia || reflexivity).
Qed.

Lemma createThread_result_kinds_witness :
  ThreadId.mk (ContextAt 1 2) 0 = NullThread
  \/ exists index,
       0 <= index < 56
       /\ ContextAt 1 2 = ContextAt 1 index
       /\ ThreadId.eqb (ThreadId.mk (ContextAt 1 2) 0) NullThread = false
       /\ ThreadId.neqb (ThreadId.mk (ContextAt 1 2) 0) NullThread = true.
Proof.
  refine (createThread_result_kinds [] 1 smallTask mockedRuntime _ _ _).
  vm_compute. reflexivity.
Defined.

(** X2.  [createThread] returns [NullThread] only after reading a full
    occupancy word: the word read at the start of the call or one left by
    another thread has bits 0..55 all set, that word is what the core holds
    afterwards, and no context is touched. *)
Theorem createThread_NullThread_only_when_full :
  forall (others : list MaskAndCount) (kId : Z) (task : ThreadInvocation)
         (s s' : Runtime) (tid : ThreadId.t) (m0 : MaskAndCount),
    createThread others kId task s = Returns (tid, s') ->
    ThreadId.eqb tid NullThread = true ->
    load (occupiedAndCount s) (if kId =? -1 then kernelThreadId s else kId)
      = Returns m0 ->
    exists seen,
      In seen (m0 :: others)
      /\ (forall i, 0 <= i < 56 -> Z.testbit (occupied seen) i = true)
      /\ load (occupiedAndCount s')
              (if kId =? -1 then kernelThreadId s else kId) = Returns seen
      /\ activeLists s' = activeLists s.
Proof.
  intros others kId task s s' tid m0 Hrun Hnull Hload.
  destruct (createThread_inv _ _ _ _ _ _ Hrun)
    as (m0' & Hload' & [(seen & Halloc & _ & Hs')
                       | (old & index & slotMap & c & _ & _ & Htid & _)]).
  - rewrite Hload in Hload'. inversion Hload'; subst m0'.
    apply allocateSlot_Full in Halloc as [Hres Hin].
    exists seen. split; [assumption|]. split; [apply reserve_None_full, Hres|].
    subst s'. split; [|reflexivity].
    apply load_lookup in Hload as [Hk Hlook]. apply load_lookup.
    split; [assumption|]. cbn [occupiedAndCount set_occupiedAndCount].
    apply list_lookup_insert_eq. eapply lookup_lt_Some. exact Hlook.
  - subst tid. cbn in Hnull. discriminate.
Qed.

Lemma createThread_NullThread_only_when_full_witness :
  exists seen,
    In seen [emptyWord; fullWord]
    /\ (forall i, 0 <= i < 56 -> Z.testbit (occupied seen) i = true)
    /\ load (occupiedAndCount
               (set_occupiedAndCount 1 fullWord crowdedRuntime)) 1
       = Returns seen
    /\ activeLists (set_occupiedAndCount 1 fullWord crowdedRuntime)
       = activeLists crowdedRuntime.
Proof.
  exact (createThread_NullThread_only_when_full
           [fullWord] 1 smallTask crowdedRuntime
           (set_occupiedAndCount 1 fullWord crowdedRuntime) NullThread
           emptyWord eq_refl eq_refl eq_refl).
Defined.



(** X4.  [createThread] touches nothing but the occupancy word of the
    target core and the context it hands out: the number of cores, the
    caller's kernel thread and loaded context and the random source are as
    before, so are the occupancy words of all other cores, and so is every
    context other than the one named by the identifier returned. *)
Theorem createThread_frame :
  forall (others : list MaskAndCount) (kId : Z) (task : ThreadInvocation)
         (s s' : Runtime) (tid : ThreadId.t),
    createThread others kId task s = Returns (tid, s') ->
    numCores s' = numCores s
    /\ kernelThreadId s' = kernelThreadId s
    /\ loadedContext s' = loadedContext s
    /\ randomState s' = randomState s
    /\ length (occupiedAndCount s') = length (occupiedAndCount s)
    /\ (forall kId',
          kId' <> (if kId =? -1 then kernelThreadId s else kId) ->
          load (occupiedAndCount s') kId' = load (occupiedAndCount s) kId')
    /\ (forall kId' index',
          ContextAt kId' index' <> ThreadId.context tid ->
          context_at kId' index' s' = context_at kId' index' s).
Proof.
  intros others kId task s s' tid Hrun.
  destruct (createThread_inv _ _ _ _ _ _ Hrun)
    as (m0 & Hload & [(seen & _ & Htid & Hs')
                     | (old & i & slotMap & c & _ & Hc & Htid & Hs')]);
    apply load_lookup in Hload as [Hk _]; subst s' tid;
    cbn [numCores kernelThreadId loadedContext randomState occupiedAndCount
         set_context set_occupiedAndCount];
    repeat match goal with |- _ /\ _ => split end; try reflexivity.
  - apply length_insert.
  - intros kId' Hne.
    exact (load_set_occupiedAndCount_other _ kId' seen s Hk Hne).
  - apply length_insert.
  - intros kId' Hne.
    exact (load_set_occupiedAndCount_other _ kId' slotMap s Hk Hne).
  - intros kId' index' Hne. cbn [ThreadId.context] in Hne.
    apply context_at_inv in Hc as (_ & Hi & _).
    rewrite context_at_set_context_other; [reflexivity|assumption|assumption|].
    intros Heq. apply Hne. inversion Heq. reflexivity.
Qed.

Lemma createThread_frame_witness :
  exists s',
    createThread [] 1 smallTask mockedRuntime
      = Returns (ThreadId.mk (ContextAt 1 2) 0, s')
    /\ randomState s' = randomState mockedRuntime
    /\ load (occupiedAndCount s') 2 = load (occupiedAndCount mockedRuntime) 2
    /\ context_at 1 1 s' = context_at 1 1 mockedRuntime.
Proof.
  destruct (createThread [] 1 smallTask mockedRuntime) as [[tid s']| |] eqn:Hrun;
    try (vm_compute in Hrun; discriminate Hrun).
  assert (Htid : tid = ThreadId.mk (ContextAt 1 2) 0).
  { vm_compute in Hrun. inversion Hrun. reflexivity. }
  subst tid. exists s'. split; [reflexivity|].
  destruct (createThread_frame [] 1 smallTask mockedRuntime s' _ Hrun)
    as (_ & _ & _ & Hrand & _ & Hwords & Hcontexts).
  split; [exact Hrand|]. split.
  - apply Hwords. cbn. lia.
  - apply Hcontexts. cbn. discriminate.
Defined.

(** X5.  [createThread] keeps every [threadInvocation] buffer one cache
    line long. *)
Theorem createThread_keeps_buffers_sized :
  forall (others : list MaskAndCount) (kId : Z) (task : ThreadInvocation)
         (s s' : Runtime) (tid : ThreadId.t),
    buffers_sized s ->
    createThread others kId task s = Returns (tid, s') ->
    buffers_sized s'.
Proof.
  intros others kId task s s' tid Hsized Hrun kId' index' c' Hc'.
  destruct (createThread_inv _ _ _ _ _ _ Hrun)
    as (m0 & Hload & [(seen & _ & _ & Hs')
                     | (old & i & slotMap & c & _ & Hc & _ & Hs')]).
  - subst s'. exact (Hsized kId' index' c' Hc').
  - set (k := if kId =? -1 then kernelThreadId s else kId) in *.
    destruct (Z.eq_dec kId' k) as [->|Hk];
      [destruct (Z.eq_dec index' i) as [->|Hi]|].
    + subst s'. erewrite context_at_set_context_same in Hc'
        by (change (context_at ?a ?b (set_occupiedAndCount _ _ s))
              with (context_at a b s); exact Hc).
      inversion Hc'; subst c'. cbn.
      apply placeInvocation_length. exact (Hsized k i c Hc).
    + subst s'. apply context_at_inv in Hc as (Hk0 & Hi0 & _).
      rewrite context_at_set_context_other in Hc'
        by (assumption || congruence).
      exact (Hsized k index' c' Hc').
    + subst s'. apply context_at_inv in Hc as (Hk0 & Hi0 & _).
      rewrite context_at_set_context_other in Hc'
        by (assumption || congruence).
      exact (Hsized kId' index' c' Hc').
Qed.

Lemma emptyCore_buffers (contexts : list ThreadContext.t) (n : nat)
    (i : nat) (c : ThreadContext.t) :
  repeat emptyCore n !! i = Some contexts ->
  forall j, contexts !! j = Some c ->
  length (ThreadContext.threadInvocation c) = CACHE_LINE_SIZE.
Proof.
  intros Hcore j Hc.
  apply list_elem_of_lookup_2, list_elem_of_In, repeat_spec in Hcore.
  subst contexts.
  apply list_elem_of_lookup_2, list_elem_of_In, in_map_iff in Hc
    as (id & <- & _).
  reflexivity.
Qed.

Lemma createThread_keeps_buffers_sized_witness :
  exists s',
    createThread [] 1 smallTask mockedRuntime
      = Returns (ThreadId.mk (ContextAt 1 2) 0, s')
    /\ buffers_sized s'.
Proof.
  destruct (createThread [] 1 smallTask mockedRuntime) as [[tid s']| |] eqn:Hrun;
    try (vm_compute in Hrun; discriminate Hrun).
  assert (Htid : tid = ThreadId.mk (ContextAt 1 2) 0).
  { vm_compute in Hrun. inversion Hrun. reflexivity. }
  subst tid. exists s'. split; [reflexivity|].
  refine (createThread_keeps_buffers_sized
            [] 1 smallTask mockedRuntime s' _ _ Hrun).
  intros kId index c Hc.
  apply context_at_inv in Hc as (_ & _ & contexts & Hcore & Hc).
  exact (emptyCore_buffers contexts 4 _ c Hcore _ Hc).
Defined.

Lemma reserve_consistent (old : MaskAndCount) (index : Z)
    (slotMap : MaskAndCount) :
  MaskAndCount_consistent old ->
  reserve old = Some (index, slotMap) ->
  MaskAndCount_consistent slotMap.
Proof.
  intros [Hvalid Hinv] Hres.
  destruct (reserve_index_range _ _ _ Hres) as (Hi & Hbit & _).
  destruct (reserve_clear old Hvalid (ex_intro _ index (conj Hi Hbit)))
    as (i & m & Hres' & _ & _ & _ & Hocc & Hnum).
  rewrite Hres in Hres'. inversion Hres'; subst i m; clear Hres'.
  pose proof (popcount_range (occupied old)) as Hrange.
  assert (Hcount : numOccupied slotMap = popcount (occupied slotMap)).
  { rewrite Hnum, Hocc, popcount_lor_pow2 by assumption.
    rewrite Hinv. apply Z.mod_small. lia. }
  split; [split|assumption].
  - rewrite Hocc. apply lor_pow2_bound; [apply Hvalid | assumption].
  - rewrite Hcount. pose proof (popcount_range (occupied slotMap)). lia.
Qed.

(** X6.  If the count of every occupancy word of the state, and of every
    word the other threads leave during the call, is the number of bits set
    in its mask, the same holds of every occupancy word after
    [createThread], whether it hands out a context or returns
    [NullThread]. *)
Theorem createThread_keeps_counts_consistent :
  forall (others : list MaskAndCount) (kId : Z) (task : ThreadInvocation)
         (s s' : Runtime) (tid : ThreadId.t),
    (forall k m, load (occupiedAndCount s) k = Returns m ->
                 MaskAndCount_consistent m) ->
    Forall MaskAndCount_consistent others ->
    createThread others kId task s = Returns (tid, s') ->
    forall k m, load (occupiedAndCount s') k = Returns m ->
                MaskAndCount_consistent m.
Proof.
  intros others kId task s s' tid Hall Hothers Hrun k m Hm.
  set (k0 := if kId =? -1 then kernelThreadId s else kId) in *.
  assert (Hin : forall w m0, load (occupiedAndCount s) k0 = Returns m0 ->
                             In w (m0 :: others) -> MaskAndCount_consistent w).
  { intros w m0 Hm0 [<-|Hin]; [exact (Hall _ _ Hm0)|].
    rewrite Forall_forall in Hothers. apply Hothers, list_elem_of_In, Hin. }
  destruct (createThread_inv _ _ _ _ _ _ Hrun)
    as (m0 & Hload & [(seen & Halloc & _ & Hs')
                     | (old & i & slotMap & c & Halloc & _ & _ & Hs')]);
    fold k0 in Hload, Hs'; pose proof Hload as Hload0;
    apply load_lookup in Hload0 as [Hk0 Hlook0];
    assert (Hlen : (Z.to_nat k0 < length (occupiedAndCount s))%nat)
      by (eapply lookup_lt_Some; exact Hlook0);
    subst s'; cbn [occupiedAndCount set_context] in Hm;
    (destruct (Z.eq_dec k k0) as [->|Hne];
     [ apply load_lookup in Hm as [_ Hm];
       cbn [occupiedAndCount set_occupiedAndCount] in Hm;
       rewrite list_lookup_insert_eq in Hm by assumption;
       inversion Hm; subst m
     | rewrite load_set_occupiedAndCount_other in Hm by assumption;
       exact (Hall _ _ Hm) ]).
  - apply allocateSlot_Full in Halloc as [_ Hseen]. exact (Hin _ _ Hload Hseen).
  - apply allocateSlot_Reserved in Halloc as [Hres Hold].
    exact (reserve_consistent old i _ (Hin _ _ Hload Hold) Hres).
Qed.

Lemma mockedRuntime_consistent (k : Z) (m : MaskAndCount) :
  load (occupiedAndCount mockedRuntime) k = Returns m ->
  MaskAndCount_consistent m.
Proof.
  intros H. apply load_lookup in H as [_ H].
  cbn [occupiedAndCount mockedRuntime] in H.
  destruct (Z.to_nat k) as [|[|[|[|n]]]]; cbn in H; try discriminate;
    inversion H; subst m; (split; [split; cbn; lia | reflexivity]).
Qed.

Lemma createThread_keeps_counts_consistent_witness :
  exists s',
    createThread [{| occupied := 7; numOccupied := 3 |}] 1 smallTask
                 mockedRuntime
      = Returns (ThreadId.mk (ContextAt 1 3) 0, s')
    /\ forall k m, load (occupiedAndCount s') k = Returns m ->
                   MaskAndCount_consistent m.
Proof.
  destruct (createThread [{| occupied := 7; numOccupied := 3 |}] 1 smallTask
                         mockedRuntime) as [[tid s']| |] eqn:Hrun;
    try (vm_compute in Hrun; discriminate Hrun).
  assert (Htid : tid = ThreadId.mk (ContextAt 1 3) 0).
  { vm_compute in Hrun. inversion Hrun. reflexivity. }
  subst tid. exists s'. split; [reflexivity|].
  refine (createThread_keeps_counts_consistent
            [{| occupied := 7; numOccupied := 3 |}] 1 smallTask
            mockedRuntime s' _ mockedRuntime_consistent _ Hrun).
  constructor; [|constructor]. split; [split; cbn; lia | reflexivity].
Defined.

(** X7.  A slot handed out by [createThread] is not handed out again
    while its bit stays set: after a call that returned the context in slot
    [index] of a core, a second call on that core, during which every word
    left by the other threads still has bit [index] set, returns
    [NullThread] or a context in another slot. *)
Theorem createThread_twice_distinct_slots :
  forall (others1 others2 : list MaskAndCount) (kId : Z)
         (task1 task2 : ThreadInvocation) (s s1 s2 : Runtime)
         (tid1 tid2 : ThreadId.t) (k index : Z),
    createThread others1 kId task1 s = Returns (tid1, s1) ->
    ThreadId.context tid1 = ContextAt k index ->
    Forall (fun w => Z.testbit (occupied w) index = true) others2 ->
    createThread others2 kId task2 s1 = Returns (tid2, s2) ->
    ThreadId.context tid2 <> ThreadId.context tid1
    /\ exists m1,
         load (occupiedAndCount s1) k = Returns m1
         /\ Z.testbit (occupied m1) index = true.
Proof.
  intros others1 others2 kId task1 task2 s s1 s2 tid1 tid2 k index
         Hrun1 Hctx Hkeep Hrun2.
  destruct (createThread_inv _ _ _ _ _ _ Hrun1)
    as (m0 & Hload & [(seen & _ & Htid & _)
                     | (old & i & slotMap & c & Halloc & _ & Htid & Hs1)]).
  { subst tid1. discriminate. }
  set (k0 := if kId =? -1 then kernelThreadId s else kId) in *.
  subst tid1. cbn in Hctx. inversion Hctx; subst k index. clear Hctx.
  apply allocateSlot_Reserved in Halloc as [Hres _].
  pose proof (reserve_sets_bit _ _ _ Hres) as Hbit.
  pose proof Hload as Hload0. apply load_lookup in Hload0 as [Hk0 Hlook0].
  assert (Hword : load (occupiedAndCount s1) k0 = Returns slotMap).
  { subst s1. apply load_lookup. split; [assumption|].
    cbn [occupiedAndCount set_context set_occupiedAndCount].
    apply list_lookup_insert_eq. eapply lookup_lt_Some. exact Hlook0. }
  split; [|eauto].
  assert (Hkernel : kernelThreadId s1 = kernelThreadId s) by (subst s1; reflexivity).
  destruct (createThread_inv _ _ _ _ _ _ Hrun2)
    as (m1 & Hload1 & [(seen & _ & Htid & _)
                      | (old2 & i2 & slotMap2 & c2 & Halloc2 & _ & Htid & _)]);
    rewrite Hkernel in Hload1; fold k0 in Hload1; subst tid2; cbn;
    [discriminate|].
  rewrite Hkernel. fold k0.
  rewrite Hword in Hload1. inversion Hload1; subst m1.
  apply allocateSlot_Reserved in Halloc2 as [Hres2 Hin].
  destruct (reserve_index_range _ _ _ Hres2) as (_ & Hclear & _).
  assert (Hset : Z.testbit (occupied old2) i = true).
  { destruct Hin as [<-|Hin]; [assumption|].
    rewrite Forall_forall in Hkeep. apply Hkeep, list_elem_of_In, Hin. }
  intros Heq. inversion Heq; subst i2. congruence.
Qed.

Lemma createThread_twice_distinct_slots_witness :
  exists s1 s2 tid2,
    createThread [] 1 smallTask mockedRuntime
      = Returns (ThreadId.mk (ContextAt 1 2) 0, s1)
    /\ createThread [{| occupied := 15; numOccupied := 4 |}] 1 smallTask s1
       = Returns (tid2, s2)
    /\ ThreadId.context tid2 <> ContextAt 1 2.
Proof.
  destruct (createThread [] 1 smallTask mockedRuntime) as [[tid1 s1]| |] eqn:Hrun1;
    try (vm_compute in Hrun1; discriminate Hrun1).
  assert (Htid : tid1 = ThreadId.mk (ContextAt 1 2) 0).
  { vm_compute in Hrun1. inversion Hrun1. reflexivity. }
  subst tid1.
  destruct (createThread [{| occupied := 15; numOccupied := 4 |}] 1 smallTask s1)
    as [[tid2 s2]| |] eqn:Hrun2.
  - exists s1, s2, tid2. split; [reflexivity|]. split; [exact Hrun2|].
    refine (proj1 (createThread_twice_distinct_slots
                     [] [{| occupied := 15; numOccupied := 4 |}] 1
                     smallTask smallTask mockedRuntime s1 s2 _ tid2 1 2
                     Hrun1 eq_refl _ Hrun2)).
    constructor; [reflexivity | constructor].
  - exfalso. vm_compute in Hrun1. inversion Hrun1; subst s1.
    vm_compute in Hrun2. discriminate Hrun2.
  - exfalso. vm_compute in Hrun1. inversion Hrun1; subst s1.
    vm_compute in Hrun2. discriminate Hrun2.
Defined.

Lemma lor_ones_pow2 (n : Z) :
  0 <= n -> Z.lor (Z.ones n) (2 ^ n) = Z.ones (n + 1).
Proof.
  intros Hn. apply Z.bits_inj'. intros m Hm.
  rewrite Z.lor_spec, !Z.testbit_ones_nonneg, Z.pow2_bits_eqb by lia.
  destruct (Z.ltb_spec m n), (Z.eqb_spec n m), (Z.ltb_spec m (n + 1));
    cbn; (reflexivity || lia).
Qed.

Lemma reserve_ones (n : Z) :
  0 <= n < 56 ->
  reserve {| occupied := Z.ones n; numOccupied := n |}
  = Some (n, {| occupied := Z.ones (n + 1); numOccupied := n + 1 |}).
Proof.
  intros Hn.
  assert (Hvalid : MaskAndCount_valid {| occupied := Z.ones n; numOccupied := n |}).
  { split; cbn [occupied numOccupied]; [|lia]. rewrite Z.ones_equiv.
    assert (2 ^ n <= 2 ^ 55) by (apply Z.pow_le_mono_r; lia).
    assert (0 < 2 ^ n) by (apply Z.pow_pos_nonneg; lia). lia. }
  destruct (reserve_clear _ Hvalid) as (i & m & Hres & Hi & Hbit & Hlow & Hocc & Hnum).
  { exists n. split; [assumption|]. cbn [occupied].
    rewrite Z.testbit_ones_nonneg by lia. apply Z.ltb_irrefl. }
  cbn [occupied numOccupied] in *.
  assert (i = n).
  { rewrite Z.testbit_ones_nonneg in Hbit by lia.
    apply Z.ltb_ge in Hbit.
    destruct (Z.eq_dec i n) as [|Hne]; [assumption|].
    specialize (Hlow n ltac:(lia)).
    rewrite Z.testbit_ones_nonneg, Z.ltb_irrefl in Hlow by lia. discriminate. }
  subst i. rewrite Hres. f_equal. f_equal. destruct m as [mo mn].
  cbn [occupied numOccupied] in *. subst mo mn.
  rewrite lor_ones_pow2 by lia. rewrite Z.mod_small by lia. reflexivity.
Qed.

(** X8.  Slots are handed out in order: on a core whose slots 0 to n - 1
    are in use and the others free, with n < 56 and nobody else writing,
    [createThread] returns the context in slot n with its generation and
    leaves slots 0 to n in use with the count n + 1.  (At n = 56 the core
    is full and the call returns [NullThread].) *)
Theorem createThread_fills_in_order :
  forall (kId : Z) (task : ThreadInvocation) (s : Runtime) (n : Z)
         (c : ThreadContext.t),
    0 <= n < 56 ->
    load (occupiedAndCount s) (if kId =? -1 then kernelThreadId s else kId)
      = Returns {| occupied := Z.ones n; numOccupied := n |} ->
    context_at (if kId =? -1 then kernelThreadId s else kId) n s = Returns c ->
    exists s',
      createThread [] kId task s
        = Returns (ThreadId.mk
                     (ContextAt (if kId =? -1 then kernelThreadId s else kId) n)
                     (ThreadContext.generation c), s')
      /\ load (occupiedAndCount s')
              (if kId =? -1 then kernelThreadId s else kId)
         = Returns {| occupied := Z.ones (n + 1); numOccupied := n + 1 |}.
Proof.
  intros kId task s n c Hn Hload Hc.
  set (k := if kId =? -1 then kernelThreadId s else kId) in *.
  eexists. split.
  - unfold createThread. fold k. rewrite Hload. cbn [mbind Outcome_bind].
    cbn [allocateSlot]. rewrite (reserve_ones n Hn).
    change (context_at k n (set_occupiedAndCount k ?w s))
      with (context_at k n s).
    rewrite Hc. cbn [mbind Outcome_bind]. reflexivity.
  - apply load_lookup in Hload as [Hk Hlook]. apply load_lookup.
    split; [assumption|].
    cbn [occupiedAndCount set_context set_occupiedAndCount].
    apply list_lookup_insert_eq. eapply lookup_lt_Some. exact Hlook.
Qed.

Lemma createThread_fills_in_order_witness :
  exists s',
    createThread [] 2 smallTask mockedRuntime
      = Returns (ThreadId.mk (ContextAt 2 2) 0, s')
    /\ load (occupiedAndCount s') 2
       = Returns {| occupied := 7; numOccupied := 3 |}.
Proof.
  exact (createThread_fills_in_order
           2 smallTask mockedRuntime 2 (emptyContext 2)
           ltac:(lia) eq_refl eq_refl).
Defined.

(** ** More on SpinLock *)

Lemma lock_spins_while_held (n : nat) (l : SpinLock.t) :
  SpinLock.state l = true -> SpinLock.lock (repeat None n) l = Spins.
Proof.
  revert l. induction n as [|n IH]; intros [b] Hb; cbn in Hb; subst b.
  - reflexivity.
  - cbn [repeat SpinLock.lock SpinLock.exchange SpinLock.state
         SpinLock.interfere].
    rewrite IH by reflexivity. reflexivity.
Qed.

(** X9.  [lock] on a held lock acquires it at the first exchange after the
    holder's release: if the other threads leave the lock alone for [n]
    rounds and then store the free state, [lock] returns after [n + 2]
    exchanges, of which only the last saw the lock free, and holds the
    lock; what the other threads would have done later plays no part. *)
Theorem lock_acquires_after_release :
  forall (n : nat) (rest : list (option bool)) (l : SpinLock.t),
    SpinLock.state l = true ->
    SpinLock.lock (repeat None n ++ Some false :: rest) l
    = Returns (repeat true (S n) ++ [false], SpinLock.mk true).
Proof.
  intros n rest. induction n as [|n IH]; intros [b] Hb; cbn in Hb; subst b.
  - cbn [repeat app SpinLock.lock SpinLock.exchange SpinLock.state
         SpinLock.interfere SpinLock.store].
    rewrite lock_free_at_once by reflexivity. reflexivity.
  - cbn [repeat app SpinLock.lock SpinLock.exchange SpinLock.state
         SpinLock.interfere].
    rewrite (IH (SpinLock.mk true) eq_refl). reflexivity.
Qed.

Lemma lock_acquires_after_release_witness :
  SpinLock.lock [None; None; Some false; Some true; None] (SpinLock.mk true)
  = Returns ([true; true; true; false], SpinLock.mk true).
Proof.
  exact (lock_acquires_after_release 2 [Some true; None] (SpinLock.mk true)
                                     eq_refl).
Defined.

(** X10.  Once [lock] has returned the lock is held until [unlock]: a
    [try_lock] fails, another [lock] spins for as long as nobody stores to
    the lock, and after [unlock] a [try_lock] succeeds and a [lock] returns
    at its first exchange. *)
Theorem SpinLock_held_until_unlock :
  forall (others : list (option bool)) (l l' : SpinLock.t) (seen : list bool),
    SpinLock.lock others l = Returns (seen, l') ->
    SpinLock.try_lock l' = (false, l')
    /\ (forall n, SpinLock.lock (repeat None n) l' = Spins)
    /\ SpinLock.try_lock (SpinLock.unlock l') = (true, l')
    /\ (forall others',
          SpinLock.lock others' (SpinLock.unlock l') = Returns ([false], l')).
Proof.
  intros others l l' seen Hlock.
  apply lock_observations in Hlock as [Hheld _].
  destruct l' as [b]. cbn in Hheld. subst b.
  split; [reflexivity|]. split.
  - intros n. apply lock_spins_while_held. reflexivity.
  - split; [reflexivity|]. intros others'.
    apply lock_free_at_once. reflexivity.
Qed.

Lemma SpinLock_held_until_unlock_witness :
  SpinLock.try_lock (SpinLock.mk true) = (false, SpinLock.mk true)
  /\ SpinLock.try_lock (SpinLock.unlock (SpinLock.mk true))
     = (true, SpinLock.mk true).
Proof.
  destruct (SpinLock_held_until_unlock
              [None; Some false] (SpinLock.mk true) (SpinLock.mk true)
              [true; true; false] eq_refl) as (Htry & _ & Hagain & _).
  exact (conj Htry Hagain).
Defined.

(** ** More on the random source *)

Lemma lxor_uint64 (a b : Z) :
  0 <= a < 2 ^ 64 -> 0 <= b < 2 ^ 64 -> 0 <= Z.lxor a b < 2 ^ 64.
Proof.
  intros Ha Hb.
  assert (Hnn : 0 <= Z.lxor a b) by (apply Z.lxor_nonneg; lia).
  split; [assumption|].
  destruct (Z.eq_dec (Z.lxor a b) 0) as [->|Hne]; [lia|].
  apply Z.log2_lt_pow2; [lia|].
  pose proof (Z.log2_lxor a b ltac:(lia) ltac:(lia)) as Hlog.
  assert (Hla : Z.log2 a < 64).
  { destruct (Z.eq_dec a 0) as [->|]; [cbn; lia|].
    apply Z.log2_lt_pow2; lia. }
  assert (Hlb : Z.log2 b < 64).
  { destruct (Z.eq_dec b 0) as [->|]; [cbn; lia|].
    apply Z.log2_lt_pow2; lia. }
  lia.
Qed.

Lemma to_uint64_range (v : Z) : 0 <= to_uint64 v < 2 ^ 64.
Proof. unfold to_uint64. apply Z.mod_pos_bound. lia. Qed.

Lemma shiftr_uint64 (a n : Z) :
  0 <= n -> 0 <= a < 2 ^ 64 -> 0 <= Z.shiftr a n < 2 ^ 64.
Proof.
  intros Hn Ha. rewrite Z.shiftr_div_pow2 by assumption.
  assert (0 < 2 ^ n) by (apply Z.pow_pos_nonneg; lia).
  split; [apply Z.div_pos; lia|].
  apply Z.le_lt_trans with a; [|lia].
  apply Z.div_le_upper_bound; [lia|]. nia.
Qed.

(** X11.  [random] keeps the random source within 64 bits: from a state
    whose words and mocked values are [uint64_t] values, the value returned
    is a [uint64_t] value and so are the words and mocked values left. *)
Theorem random_stays_in_uint64 :
  forall r : RandomState.t,
    RandomState_valid r ->
    0 <= fst (random r) < 2 ^ 64 /\ RandomState_valid (snd (random r)).
Proof.
  intros [mock x0 y0 z0] (Hmock & Hx & Hy & Hz). cbn in *.
  unfold random. cbn [RandomState.mockRandomValues RandomState.x
                      RandomState.y RandomState.z].
  destruct mock as [|v rest].
  - cbn [fst snd].
    set (x1 := Z.lxor x0 (to_uint64 (Z.shiftl x0 16))).
    assert (Hx1 : 0 <= x1 < 2 ^ 64)
      by (apply lxor_uint64; [assumption | apply to_uint64_range]).
    set (x2 := Z.lxor x1 (Z.shiftr x1 5)).
    assert (Hx2 : 0 <= x2 < 2 ^ 64)
      by (apply lxor_uint64; [assumption | apply shiftr_uint64; lia]).
    set (x3 := Z.lxor x2 (to_uint64 (Z.shiftl x2 1))).
    assert (Hx3 : 0 <= x3 < 2 ^ 64)
      by (apply lxor_uint64; [assumption | apply to_uint64_range]).
    assert (Hz4 : 0 <= Z.lxor (Z.lxor x3 y0) z0 < 2 ^ 64)
      by (apply lxor_uint64; [apply lxor_uint64|]; assumption).
    split; [assumption|]. repeat split; cbn; (assumption || lia || constructor).
  - inversion Hmock as [|? ? Hv Hrest]; subst. cbn [fst snd].
    split; [assumption|]. repeat split; cbn; (assumption || lia).
Qed.

Lemma random_stays_in_uint64_witness :
  0 <= fst (random RandomState.initial) < 2 ^ 64
  /\ RandomState_valid (snd (random RandomState.initial)).
Proof.
  apply (random_stays_in_uint64 RandomState.initial).
  repeat split; cbn; (lia || constructor).
Defined.

Lemma draws_app (n m : nat) (r : RandomState.t) :
  draws (n + m) r
  = (fst (draws n r) ++ fst (draws m (snd (draws n r))),
     snd (draws m (snd (draws n r)))).
Proof.
  revert r. induction n as [|n IH]; intros r.
  - cbn [Nat.add draws fst snd app]. destruct (draws m r); reflexivity.
  - cbn [Nat.add draws]. destruct (random r) as [v r1]. rewrite IH.
    destruct (draws n r1) as [vs r2]. cbn [fst snd]. reflexivity.
Qed.

Lemma draws_mocked (mock : list Z) (x0 y0 z0 : Z) :
  draws (length mock) (RandomState.mk mock x0 y0 z0)
  = (mock, RandomState.mk [] x0 y0 z0).
Proof.
  induction mock as [|v mock IH]; [reflexivity|].
  cbn [length draws]. unfold random at 1.
  cbn [RandomState.mockRandomValues RandomState.x RandomState.y RandomState.z].
  rewrite IH. reflexivity.
Qed.

(** X12.  Under [TEST] the queued values come first: [random] returns the
    values of [mockRandomValues] one call after the other in queue order
    without touching the generator, and the calls that follow draw from
    the generator as if nothing had been queued. *)
Theorem random_serves_mocked_values_first :
  forall (mock : list Z) (x0 y0 z0 : Z) (n : nat),
    draws (length mock + n) (RandomState.mk mock x0 y0 z0)
    = (mock ++ fst (draws n (RandomState.mk [] x0 y0 z0)),
       snd (draws n (RandomState.mk [] x0 y0 z0)))
    /\ draws (length mock) (RandomState.mk mock x0 y0 z0)
       = (mock, RandomState.mk [] x0 y0 z0).
Proof.
  intros mock x0 y0 z0 n. split; [|apply draws_mocked].
  rewrite draws_app, draws_mocked. reflexivity.
Qed.

(** ** More on placement *)

Lemma countBits_bound (a : Z) (start len : nat) :
  0 <= fold_right (fun k acc => Z.b2z (Z.testbit a (Z.of_nat k)) + acc)
                  0 (seq start len) <= Z.of_nat len.
Proof.
  revert start. induction len as [|len IH]; intros start;
    cbn [seq fold_right]; [lia|].
  specialize (IH (S start)).
  destruct (Z.testbit a (Z.of_nat start)); cbn [Z.b2z]; lia.
Qed.

Lemma countBits_full (a : Z) (start len : nat) :
  fold_right (fun k acc => Z.b2z (Z.testbit a (Z.of_nat k)) + acc)
             0 (seq start len) = Z.of_nat len ->
  forall k, (start <= k < start + len)%nat ->
            Z.testbit a (Z.of_nat k) = true.
Proof.
  revert start. induction len as [|len IH]; intros start Hsum k Hk; [lia|].
  cbn [seq fold_right] in Hsum.
  pose proof (countBits_bound a (S start) len) as Hb.
  destruct (Z.testbit a (Z.of_nat start)) eqn:Hbit; cbn [Z.b2z] in Hsum;
    [|lia].
  destruct (Nat.eq_dec k start) as [->|Hne]; [assumption|].
  apply (IH (S start)); lia.
Qed.

Lemma countBits_all_set (a : Z) (start len : nat) :
  (forall k, (start <= k < start + len)%nat ->
             Z.testbit a (Z.of_nat k) = true) ->
  fold_right (fun k acc => Z.b2z (Z.testbit a (Z.of_nat k)) + acc)
             0 (seq start len) = Z.of_nat len.
Proof.
  revert start. induction len as [|len IH]; intros start Hall;
    cbn [seq fold_right]; [reflexivity|].
  rewrite (Hall start) by lia. rewrite IH by (intros k Hk; apply Hall; lia).
  cbn [Z.b2z]. lia.
Qed.

Lemma popcount_56_iff_full (a : Z) :
  popcount a = 56 <-> (forall i, 0 <= i < 56 -> Z.testbit a i = true).
Proof.
  unfold popcount. split.
  - intros Hsum i Hi.
    rewrite <- (Z2Nat.id i) by lia.
    apply (countBits_full a 0 56 Hsum). lia.
  - intros Hall. apply (countBits_all_set a 0 56).
    intros k Hk. apply Hall. lia.
Qed.

Lemma pickSecond_exit (fuel : nat) (cores choice1 choice2 : Z)
    (r : RandomState.t) :
  choice2 <> choice1 ->
  pickSecond fuel cores choice1 choice2 r = Returns (choice2, r).
Proof.
  intros Hne. apply Z.eqb_neq in Hne.
  destruct fuel; cbn [pickSecond]; rewrite Hne; reflexivity.
Qed.

Lemma pickSecond_mocked (cores choice1 v : Z) (rest : list Z) (x0 y0 z0 : Z)
    (same : list Z) (fuel : nat) :
  Forall (fun u => candidate u cores = choice1) same ->
  candidate v cores <> choice1 ->
  (length same < fuel)%nat ->
  pickSecond fuel cores choice1 choice1
             (RandomState.mk (same ++ v :: rest) x0 y0 z0)
  = Returns (candidate v cores, RandomState.mk rest x0 y0 z0).
Proof.
  intros Hsame Hv. revert fuel.
  induction Hsame as [|u same Hu Hsame IH]; intros fuel Hfuel;
    (destruct fuel as [|fuel]; [cbn in Hfuel; lia|]);
    cbn [pickSecond app]; rewrite Z.eqb_refl; unfold random at 1;
    cbn [RandomState.mockRandomValues RandomState.x RandomState.y
         RandomState.z].
  - apply pickSecond_exit. assumption.
  - rewrite Hu. apply IH. cbn in Hfuel. lia.
Qed.

(** X13.  The loop that draws the second candidate ends at the first
    value of [random] that names another core than the first candidate:
    with the values [v1], then the values of [same], which all name the
    core of [v1], then [v], which names another core, the two candidates
    are the cores of [v1] and of [v], and the values queued after [v] are
    left for later calls. *)
Theorem pickTwo_ends_at_first_other_core :
  forall (cores v1 v : Z) (same rest : list Z) (x0 y0 z0 : Z) (fuel : nat),
    cores <> 0 ->
    Forall (fun u => candidate u cores = candidate v1 cores) same ->
    candidate v cores <> candidate v1 cores ->
    (length same <= fuel)%nat ->
    pickTwo fuel cores (RandomState.mk (v1 :: same ++ v :: rest) x0 y0 z0)
    = Returns (candidate v1 cores, candidate v cores,
               RandomState.mk rest x0 y0 z0).
Proof.
  intros cores v1 v same rest x0 y0 z0 fuel Hcores Hsame Hv Hfuel.
  unfold pickTwo. apply Z.eqb_neq in Hcores. rewrite Hcores.
  unfold random at 1.
  cbn [RandomState.mockRandomValues RandomState.x RandomState.y RandomState.z].
  destruct same as [|u same].
  - cbn [app]. unfold random at 1.
    cbn [RandomState.mockRandomValues RandomState.x RandomState.y
         RandomState.z].
    rewrite pickSecond_exit by assumption. reflexivity.
  - cbn [app]. unfold random at 1.
    cbn [RandomState.mockRandomValues RandomState.x RandomState.y
         RandomState.z].
    inversion Hsame as [|? ? Hu Hsame']; subst. rewrite Hu.
    rewrite (pickSecond_mocked cores (candidate v1 cores) v rest x0 y0 z0
                               same fuel Hsame' Hv)
      by (cbn in Hfuel; lia).
    reflexivity.
Qed.

Lemma pickTwo_ends_at_first_other_core_witness :
  pickTwo 2 4 (RandomState.mk [5; 9; 13; 2; 7] 1 2 3)
  = Returns (1, 2, RandomState.mk [7] 1 2 3).
Proof.
  refine (pickTwo_ends_at_first_other_core 4 5 2 [9; 13] [7] 1 2 3 2 _ _ _ _).
  - lia.
  - repeat constructor.
  - vm_compute. discriminate.
  - cbn. lia.
Defined.

(** X14.  The load-balanced [createThread] gives up only when both
    candidates are full: if the counts of the two candidates' occupancy
    words are the numbers of bits set in their masks and nobody else
    writes, a result equal to [NullThread] means that each of the two
    candidate cores has all of its 56 slots in use. *)
Theorem createThread_balanced_NullThread_both_full :
  forall (fuel : nat) (task : ThreadInvocation) (s s' : Runtime)
         (choice1 choice2 : Z) (r : RandomState.t) (m1 m2 : MaskAndCount)
         (tid : ThreadId.t),
    pickTwo fuel (numCores s) (randomState s) = Returns (choice1, choice2, r) ->
    load (occupiedAndCount s) choice1 = Returns m1 ->
    load (occupiedAndCount s) choice2 = Returns m2 ->
    MaskAndCount_consistent m1 ->
    MaskAndCount_consistent m2 ->
    createThread_balanced fuel [] task s = Returns (tid, s') ->
    ThreadId.eqb tid NullThread = true ->
    (forall i, 0 <= i < 56 -> Z.testbit (occupied m1) i = true)
    /\ (forall i, 0 <= i < 56 -> Z.testbit (occupied m2) i = true)
    /\ numOccupied m1 = 56 /\ numOccupied m2 = 56.
Proof.
  intros fuel task s s' choice1 choice2 r m1 m2 tid
         Hpick Hm1 Hm2 [_ Hc1] [_ Hc2] Hrun Hnull.
  unfold createThread_balanced in Hrun. rewrite Hpick in Hrun.
  cbn [mbind Outcome_bind] in Hrun. rewrite Hm1 in Hrun.
  cbn [mbind Outcome_bind] in Hrun. rewrite Hm2 in Hrun.
  cbn [mbind Outcome_bind] in Hrun.
  pose proof (popcount_range (occupied m1)) as Hr1.
  pose proof (popcount_range (occupied m2)) as Hr2.
  assert (Hchosen : exists m,
             load (occupiedAndCount s) (chooseCore choice1 choice2 m1 m2)
               = Returns m
             /\ numOccupied m <= numOccupied m1
             /\ numOccupied m <= numOccupied m2
             /\ numOccupied m = popcount (occupied m)).
  { unfold chooseCore.
    destruct (Z.ltb_spec (numOccupied m1) (numOccupied m2));
      [exists m1 | exists m2]; repeat split; (assumption || lia). }
  destruct Hchosen as (m & Hm & Hle1 & Hle2 & Hcm).
  set (kId := chooseCore choice1 choice2 m1 m2) in *.
  assert (Hk : (kId =? -1) = false).
  { apply load_lookup in Hm as [Hk _]. apply Z.eqb_neq. lia. }
  destruct (createThread_inv _ _ _ _ _ _ Hrun)
    as (m0 & Hload & [(seen & Halloc & _ & _)
                     | (old & i & slotMap & c & _ & _ & Htid & _)]).
  - rewrite Hk in Hload.
    change (occupiedAndCount (set_randomState r s)) with (occupiedAndCount s)
      in Hload.
    rewrite Hm in Hload. inversion Hload; subst m0.
    apply allocateSlot_Full in Halloc as [Hres [<-|[]]].
    pose proof (reserve_None_full _ Hres) as Hfull.
    apply popcount_56_iff_full in Hfull.
    assert (H1 : popcount (occupied m1) = 56) by lia.
    assert (H2 : popcount (occupied m2) = 56) by lia.
    split; [apply popcount_56_iff_full, H1|].
    split; [apply popcount_56_iff_full, H2|]. lia.
  - subst tid. cbn in Hnull. discriminate.
Qed.

Lemma createThread_balanced_NullThread_both_full_witness :
  (forall i, 0 <= i < 56 -> Z.testbit (occupied fullWord) i = true)
  /\ createThread_balanced 0 [] smallTask packedRuntime
     = Returns (NullThread, set_randomState
                              (snd (draws 2 RandomState.initial))
                              packedRuntime).
Proof.
  split; [|vm_compute; reflexivity].
  refine (proj1 (createThread_balanced_NullThread_both_full
                   0 smallTask packedRuntime
                   (set_randomState (snd (draws 2 RandomState.initial))
                                    packedRuntime)
                   1 0 (snd (draws 2 RandomState.initial))
                   fullWord fullWord NullThread _ eq_refl eq_refl _ _ _ eq_refl)).
  - vm_compute. reflexivity.
  - split; [split; cbn; lia | reflexivity].
  - split; [split; cbn; lia | reflexivity].
  - vm_compute. reflexivity.
Defined.
